(** * TaskFilter: normalisation, filtering, counting and date predicates

    A shallow embedding of the data-handling functions of
    [src/components/tasks/TaskFilter.jsx]: [normalizeTask], [updateCounts],
    [applyFilters], [isOverdue] and [isDueToday], the handlers
    [handleFilterChange], [resetFilters], [handleStorageChange] and
    [loadTasks], and [getPriorityClasses], together with the part of the
    JavaScript value model they rely on (truthiness, [||], [typeof],
    strict equality with a string, [toLowerCase], [trim], [includes]). *)

From Stdlib Require Import ZArith QArith Ascii String.
Close Scope Q_scope.
From stdpp Require Import base option list strings gmap.

Local Open Scope string_scope.

(** ** JavaScript values *)

Module JS.

(** A JavaScript number: the finite doubles are rationals; [JSON.parse]
    can also produce the infinities, and [NaN] is a number as well. *)
Inductive number :=
| NaN
| Fin (q : Q)
| Inf (negative : bool).

(** The values a parsed JSON document or an object literal of the component
    can hold. Arrays and nested objects are carried but never inspected. *)
#[warnings="-register-all"]
Inductive value :=
| VUndefined
| VNull
| VBool (b : bool)
| VNum (n : number)
| VStr (s : string)
| VArr (items : list value)
| VObj (props : list (string * value)).

(** [x > y] on numbers: false as soon as one side is [NaN]. *)
Definition number_gt (x y : number) : bool :=
  match x, y with
  | NaN, _ | _, NaN => false
  | Fin a, Fin b => negb (Qle_bool a b)
  | Fin _, Inf negative => negative
  | Inf negative, Fin _ => negb negative
  | Inf nx, Inf ny => negb nx && ny
  end.

(** ToBoolean: [undefined], [null], [false], [0], [NaN] and the empty string
    are falsy, everything else is truthy. *)
Definition toBoolean (v : value) : bool :=
  match v with
  | VUndefined | VNull => false
  | VBool b => b
  | VNum NaN => false
  | VNum (Fin q) => negb (Qeq_bool q 0)
  | VNum (Inf _) => true
  | VStr s => negb (String.eqb s "")
  | VArr _ | VObj _ => true
  end.

(** [a || b] *)
Definition or_else (a b : value) : value :=
  if toBoolean a then a else b.

(** [typeof v] *)
Definition typeof (v : value) : string :=
  match v with
  | VUndefined => "undefined"
  | VNull => "object"
  | VBool _ => "boolean"
  | VNum _ => "number"
  | VStr _ => "string"
  | VArr _ | VObj _ => "object"
  end.

(** [v === s] where the right operand is a string: true exactly when [v]
    is that string. *)
Definition strict_eq_string (v : value) (s : string) : bool :=
  match v with
  | VStr t => String.eqb t s
  | _ => false
  end.

(** *** Strings

    A string is its sequence of code units; the embedding keeps the code
    units below 256 (Latin-1), a range that [toLowerCase] and [trim] do not
    leave. *)

(** The lower-case mapping of one code unit: [A]-[Z], and the accented
    capitals U+00C0-U+00DE except the multiplication sign U+00D7, move up
    by 32. *)
Definition lowerChar (c : ascii) : ascii :=
  let n := N_of_ascii c in
  if ((65 <=? n) && (n <=? 90)
      || (192 <=? n) && (n <=? 222) && negb (n =? 215))%N
  then ascii_of_N (n + 32) else c.

(** [s.toLowerCase()] *)
Fixpoint toLowerCase (s : string) : string :=
  match s with
  | EmptyString => EmptyString
  | String c r => String (lowerChar c) (toLowerCase r)
  end.

(** White space and line terminators among the code units below 256:
    TAB, LF, VT, FF, CR, SP and NBSP. *)
Definition isWhiteSpace (c : ascii) : bool :=
  let n := N_of_ascii c in
  ((9 <=? n) && (n <=? 13) || (n =? 32) || (n =? 160))%N.

Fixpoint trimStart (s : string) : string :=
  match s with
  | EmptyString => EmptyString
  | String c r => if isWhiteSpace c then trimStart r else s
  end.

Fixpoint trimEnd (s : string) : string :=
  match s with
  | EmptyString => EmptyString
  | String c r =>
      match trimEnd r with
      | EmptyString => if isWhiteSpace c then EmptyString
                       else String c EmptyString
      | r' => String c r'
      end
  end.

(** [s.trim()] *)
Definition trim (s : string) : string := trimEnd (trimStart s).

(** [hay.includes(needle)]: [needle] starts at some position of [hay]. *)
Fixpoint includes (hay needle : string) : bool :=
  String.prefix needle hay
  || match hay with
     | EmptyString => false
     | String _ r => includes r needle
     end.

(** Property read [o.k] on a plain object: [undefined] when [k] is absent.
    None of the names read by the component is defined on
    [Object.prototype]. *)
Definition get (o : gmap string value) (k : string) : value :=
  default VUndefined (o !! k).

End JS.

Export JS.

Infix "||'" := or_else (at level 50, left associativity).

(** ** The clock and id source

    [Date.now().toString()] and [new Date().toISOString()] are the only
    reads of the environment in [normalizeTask]; both are taken from an
    injected clock. *)
Record clock := Clock {
  dateNowString : string;   (* Date.now().toString() *)
  isoNowString : string     (* new Date().toISOString() *)
}.

(** ** normalizeTask *)

(** The first part of [normalizeTask]: the completion status, decided from
    [task.status] when it is one of the two literals, and otherwise from a
    numeric [task.progress]. *)
Definition normalizedStatus (task : gmap string value) : string :=
  if strict_eq_string (get task "status") "complete" then "complete"
  else if strict_eq_string (get task "status") "incomplete" then "incomplete"
  else match get task "progress" with
       | VNum p =>                     (* typeof task.progress === 'number' *)
           if number_gt p (Fin 80) then "complete" else "incomplete"
       | _ => "incomplete"
       end.

Definition normalizeTask (clk : clock) (task : gmap string value)
  : gmap string value :=
  let status := normalizedStatus task in
  list_to_map [
    ("id", get task "id" ||' get task "_id" ||' VStr (dateNowString clk));
    ("title", get task "title" ||' VStr "Untitled Task");
    ("description", get task "description" ||' VStr "");
    ("status", VStr status);
    ("priority", get task "priority" ||' VStr "medium");
    ("dueDate", get task "dueDate" ||' get task "deadline" ||' VNull);
    ("createdAt", get task "createdAt" ||' VStr (isoNowString clk));
    ("progress",
       get task "progress" ||'
       VNum (Fin (if String.eqb status "complete" then 100 else 0)));
    ("assignedTo", get task "assignedTo" ||' VStr "Unassigned")
  ].

(** ** Exceptions

    A method call on a value that has no such method throws a [TypeError];
    an exception leaves the enclosing function at once. *)
Inductive exn := TypeError.

Inductive outcome (A : Type) :=
| Ok (a : A)
| Throw (e : exn).
Arguments Ok {A} a.
Arguments Throw {A} e.

#[global] Instance outcome_bind : MBind outcome := fun A B k r =>
  match r with
  | Ok a => k a
  | Throw e => Throw e
  end.

(** [v.toLowerCase()] on an arbitrary value: only strings have the method
    (values read from JSON never hold functions). *)
Definition callToLowerCase (v : value) : outcome string :=
  match v with
  | VStr s => Ok (toLowerCase s)
  | _ => Throw TypeError
  end.

(** [list.filter(p)] for a callback that may throw: the callback runs on the
    elements from left to right, and the first exception ends the call. *)
Fixpoint filterM {A} (p : A -> outcome bool) (l : list A) : outcome (list A) :=
  match l with
  | [] => Ok []
  | x :: r =>
      b ← p x;
      r' ← filterM p r;
      Ok (if b : bool then x :: r' else r')
  end.

(** ** Component state *)

Module Filters.
Record t := Make { status : string; search : string; priority : string }.
End Filters.

Module Counts.
Record t := Make { all : nat; complete : nat; incomplete : nat }.
End Counts.

Module State.
Record t := Make {
  tasks : list (gmap string value);
  filteredTasks : list (gmap string value);
  loading : bool;
  error : option string;
  filters : Filters.t;
  counts : Counts.t
}.

(** The initial values given to [useState]. *)
Definition initial : t :=
  {| tasks := []; filteredTasks := []; loading := true; error := None;
     filters := Filters.Make "all" "" "all";
     counts := Counts.Make 0 0 0 |}.
End State.

Definition setFilteredTasks (l : list (gmap string value)) (st : State.t)
  : State.t :=
  State.Make (State.tasks st) l (State.loading st) (State.error st)
             (State.filters st) (State.counts st).

Definition setCounts (c : Counts.t) (st : State.t) : State.t :=
  State.Make (State.tasks st) (State.filteredTasks st) (State.loading st)
             (State.error st) (State.filters st) c.

(** ** updateCounts *)

Definition updateCounts (taskList : list (gmap string value)) (st : State.t)
  : State.t :=
  let completeTasks :=
    length (List.filter
              (fun task => strict_eq_string (get task "status") "complete")
              taskList) in
  let incompleteTasks :=
    length (List.filter
              (fun task => strict_eq_string (get task "status") "incomplete")
              taskList) in
  setCounts (Counts.Make (length taskList) completeTasks incompleteTasks) st.

(** ** applyFilters *)

(** The callback of the priority filter:
    [task.priority && task.priority.toLowerCase() === priority.toLowerCase()]. *)
Definition priorityMatches (priority : string) (task : gmap string value)
  : outcome bool :=
  if toBoolean (get task "priority") then
    p ← callToLowerCase (get task "priority");
    Ok (String.eqb p (toLowerCase priority))
  else Ok false.

(** The callback of the search filter: the three [includes] tests joined by
    [||], evaluated left to right and stopping at the first that holds. *)
Definition searchMatches (searchTerm : string) (task : gmap string value)
  : outcome bool :=
  title ← callToLowerCase (get task "title");
  if includes title searchTerm then Ok true else
  description ← callToLowerCase (get task "description");
  if includes description searchTerm then Ok true else
  if toBoolean (get task "assignedTo") then
    assignedTo ← callToLowerCase (get task "assignedTo");
    Ok (includes assignedTo searchTerm)
  else Ok false.

(** The three [if] blocks of [applyFilters], in source order. *)
Definition statusFilter (filterSettings : Filters.t)
    (result : list (gmap string value)) : list (gmap string value) :=
  if negb (String.eqb (Filters.status filterSettings) "all") then
    List.filter
      (fun task =>
         strict_eq_string (get task "status") (Filters.status filterSettings))
      result
  else result.

Definition priorityFilter (filterSettings : Filters.t)
    (result : list (gmap string value)) : outcome (list (gmap string value)) :=
  if negb (String.eqb (Filters.priority filterSettings) "all") then
    filterM (priorityMatches (Filters.priority filterSettings)) result
  else Ok result.

Definition searchFilter (filterSettings : Filters.t)
    (result : list (gmap string value)) : outcome (list (gmap string value)) :=
  if negb (String.eqb (trim (Filters.search filterSettings)) "") then
    let searchTerm := trim (toLowerCase (Filters.search filterSettings)) in
    filterM (searchMatches searchTerm) result
  else Ok result.

Definition applyFilters (taskList : list (gmap string value))
    (filterSettings : Filters.t) (st : State.t) : outcome State.t :=
  let result := taskList in                       (* [...taskList] *)
  let result := statusFilter filterSettings result in
  result ← priorityFilter filterSettings result;
  result ← searchFilter filterSettings result;
  Ok (setFilteredTasks result st).

(** ** Dates

    [isOverdue] and [isDueToday] read the host's [Date]: the constructor
    [new Date(v)], the comparison of two dates and [toDateString]. The host
    is a parameter of the embedding. *)

Definition msPerDay : Z := 86400000.

Record host := Host {
  (** the time value of [new Date(v)], in milliseconds since the epoch;
      [None] for an invalid date, whose time value is [NaN] *)
  dateValue : value -> option Z;
  (** the offset of local time from UTC at a time value, in milliseconds *)
  localOffset : Z -> Z
}.

(** The day of local time a time value falls on, counted from the epoch. *)
Definition localDay (h : host) (t : Z) : Z := (t + localOffset h t) / msPerDay.

(** [d.toDateString()] prints the week day, month, day of the month and year
    of the local day of [d], or the text [Invalid Date]. The text names the
    local day and nothing else, so the embedding keeps the day in its place:
    two texts are the same exactly when the days are. *)
Inductive dateString :=
| InvalidDate
| LocalDay (day : Z).

Definition toDateString (h : host) (d : option Z) : dateString :=
  match d with
  | None => InvalidDate
  | Some t => LocalDay (localDay h t)
  end.

Definition dateString_eqb (a b : dateString) : bool :=
  match a, b with
  | InvalidDate, InvalidDate => true
  | LocalDay x, LocalDay y => (x =? y)%Z
  | _, _ => false
  end.

(** [a < b] on two dates compares the time values; a comparison with [NaN]
    is false. *)
Definition date_lt (a b : option Z) : bool :=
  match a, b with
  | Some x, Some y => (x <? y)%Z
  | _, _ => false
  end.

(** [now] is the time value of [new Date()]; the reads of the clock within
    one call are taken at one instant. *)
Definition isOverdue (h : host) (now : Z) (dueDate : value) : bool :=
  if negb (toBoolean dueDate) then false
  else
    date_lt (dateValue h dueDate) (Some now)
    && negb (dateString_eqb (toDateString h (dateValue h dueDate))
                            (toDateString h (Some now))).

Definition isDueToday (h : host) (now : Z) (dueDate : value) : bool :=
  if negb (toBoolean dueDate) then false
  else dateString_eqb (toDateString h (dateValue h dueDate))
                      (toDateString h (Some now)).

(** *** A host with a fixed offset

    A host whose zone has one offset throughout and whose [Date] reads the
    date-time form [YYYY-MM-DDTHH:mm], which carries no offset and is
    therefore taken as local time. It serves the dated examples, which pass
    texts of that form only; it gives no date to anything else. *)

(** Days from the epoch to a day of the proleptic Gregorian calendar. *)
Definition daysFromCivil (y m d : Z) : Z :=
  let y' := if (m <=? 2)%Z then (y - 1)%Z else y in
  let era := (y' / 400)%Z in
  let yoe := (y' - era * 400)%Z in
  let mp := if (m <=? 2)%Z then (m + 9)%Z else (m - 3)%Z in
  let doy := ((153 * mp + 2) / 5 + d - 1)%Z in
  let doe := (yoe * 365 + yoe / 4 - yoe / 100 + doy)%Z in
  (era * 146097 + doe - 719468)%Z.

(** The time value of a local date and time in the zone of offset [off]. *)
Definition localTime (off y m d hh mm : Z) : Z :=
  (daysFromCivil y m d * msPerDay + hh * 3600000 + mm * 60000 - off)%Z.

Definition digit (c : ascii) : option Z :=
  let n := N_of_ascii c in
  if ((48 <=? n) && (n <=? 57))%N then Some (Z.of_N n - 48)%Z else None.

Fixpoint digits (acc : Z) (l : list ascii) : option Z :=
  match l with
  | [] => Some acc
  | c :: r => d ← digit c; digits (10 * acc + d)%Z r
  end.

Definition parseLocalDateTime (off : Z) (s : string) : option Z :=
  match list_ascii_of_string s with
  | [y1; y2; y3; y4; "-"; m1; m2; "-"; d1; d2; "T"; h1; h2; ":"; n1; n2]%char =>
      y ← digits 0 [y1; y2; y3; y4];
      m ← digits 0 [m1; m2];
      d ← digits 0 [d1; d2];
      hh ← digits 0 [h1; h2];
      mm ← digits 0 [n1; n2];
      if ((1 <=? m) && (m <=? 12) && (1 <=? d) && (d <=? 31)
          && (hh <=? 23) && (mm <=? 59))%Z
      then Some (localTime off y m d hh mm) else None
  | _ => None
  end.

Definition fixedOffsetHost (off : Z) : host :=
  {| dateValue v := match v with
                    | VStr s => parseLocalDateTime off s
                    | _ => None
                    end;
     localOffset _ := off |}.

(** ** getPriorityClasses *)

(** [priority?.toLowerCase()]: [undefined] when [priority] is [null] or
    [undefined], and the method call on every other value. *)
Definition optionalToLowerCase (priority : value) : outcome value :=
  match priority with
  | VUndefined | VNull => Ok VUndefined
  | _ => s ← callToLowerCase priority; Ok (VStr s)
  end.

(** The [switch] compares with [===], case by case from the top. *)
Definition getPriorityClasses (priority : value) : outcome string :=
  p ← optionalToLowerCase priority;
  Ok (if strict_eq_string p "high" then "bg-red-100 text-red-800"
      else if strict_eq_string p "medium" then "bg-yellow-100 text-yellow-800"
      else if strict_eq_string p "low" then "bg-green-100 text-green-800"
      else "bg-gray-100 text-gray-800").

(** ** handleFilterChange and resetFilters *)

Definition setTasks (l : list (gmap string value)) (st : State.t) : State.t :=
  State.Make l (State.filteredTasks st) (State.loading st) (State.error st)
             (State.filters st) (State.counts st).

Definition setLoading (b : bool) (st : State.t) : State.t :=
  State.Make (State.tasks st) (State.filteredTasks st) b (State.error st)
             (State.filters st) (State.counts st).

Definition setError (e : option string) (st : State.t) : State.t :=
  State.Make (State.tasks st) (State.filteredTasks st) (State.loading st) e
             (State.filters st) (State.counts st).

Definition setFilters (f : Filters.t) (st : State.t) : State.t :=
  State.Make (State.tasks st) (State.filteredTasks st) (State.loading st)
             (State.error st) f (State.counts st).

(** [{...filters, [filterType]: value}]: a copy of [filters] in which the
    property named [filterType] holds [value]. A name other than the three
    criteria adds a property that nothing reads. *)
Definition withFilter (filters : Filters.t) (filterType newValue : string)
  : Filters.t :=
  if String.eqb filterType "status" then
    Filters.Make newValue (Filters.search filters) (Filters.priority filters)
  else if String.eqb filterType "search" then
    Filters.Make (Filters.status filters) newValue (Filters.priority filters)
  else if String.eqb filterType "priority" then
    Filters.Make (Filters.status filters) (Filters.search filters) newValue
  else filters.

(** The handlers read [filters] and [tasks] of the current render. When
    [applyFilters] throws, the exception leaves the handler. *)
Definition handleFilterChange (filterType newValue : string) (st : State.t)
  : outcome State.t :=
  let newFilters := withFilter (State.filters st) filterType newValue in
  let st := setFilters newFilters st in
  applyFilters (State.tasks st) newFilters st.

Definition resetFilters (st : State.t) : outcome State.t :=
  let resetFilters := Filters.Make "all" "" "all" in
  let st := setFilters resetFilters st in
  applyFilters (State.tasks st) resetFilters st.

(** The condition under which the view renders the Reset Filters button:
    [filters.search || filters.status !== 'all' ||
    filters.priority !== 'all']. *)
Definition resetButtonShown (filters : Filters.t) : bool :=
  toBoolean (VStr (Filters.search filters))
  || negb (String.eqb (Filters.status filters) "all")
  || negb (String.eqb (Filters.priority filters) "all").

(** ** Loading the tasks *)

(** Reading the properties of [normalizeTask] off a parsed JSON value:
    [null] has no properties and the read throws; an object has its own
    properties, the last of two with the same name standing; a number, a
    string, a boolean or an array has none of the names [normalizeTask]
    reads. *)
Definition asObject (v : value) : outcome (gmap string value) :=
  match v with
  | VUndefined | VNull => Throw TypeError
  | VObj props => Ok (list_to_map (reverse props))
  | _ => Ok ∅
  end.

(** [items.map(normalizeTask)], the [i]-th call reading the clock
    [clocks i]; the first call that throws ends the whole. *)
Fixpoint mapNormalize (clocks : nat -> clock) (i : nat) (items : list value)
  : outcome (list (gmap string value)) :=
  match items with
  | [] => Ok []
  | v :: r =>
      task ← asObject v;
      r' ← mapNormalize clocks (S i) r;
      Ok (normalizeTask (clocks i) task :: r')
  end.

(** [parsed.map(normalizeTask)]: only an array has [map]. *)
Definition normalizeAll (clocks : nat -> clock) (parsed : value)
  : outcome (list (gmap string value)) :=
  match parsed with
  | VArr items => mapNormalize clocks 0 items
  | _ => Throw TypeError
  end.

(** What the component reads from the browser. *)
Record browser := Browser {
  (** [JSON.parse(s)]; [None] when it throws *)
  jsonParse : string -> option value;
  (** [JSON.stringify(v)] *)
  jsonStringify : value -> string;
  (** [localStorage.getItem('tasks')]: the stored text, [Some None] for
      [null], [None] when the storage refuses the access and throws *)
  getItemTasks : option (option string);
  (** whether [localStorage.setItem] goes through; it throws otherwise *)
  setItemSucceeds : bool;
  (** [Date.now()] *)
  dateNow : Z;
  (** [new Date(t).toISOString()] *)
  toISOString : Z -> string
}.

(** The three steps shared by [loadTasks] and [handleStorageChange]:
    [setTasks], [applyFilters] and [updateCounts]. The flag is [false] when
    [applyFilters] throws; the state is then as [setTasks] left it. *)
Definition showTasks (normalizedTasks : list (gmap string value))
    (filters : Filters.t) (st : State.t) : State.t * bool :=
  let st := setTasks normalizedTasks st in
  match applyFilters normalizedTasks filters st with
  | Throw _ => (st, false)
  | Ok st => (updateCounts normalizedTasks st, true)
  end.

Module StorageEvent.
Record t := Make { key : option string; newValue : option string }.
End StorageEvent.

(** The effect that defines [loadTasks] and [handleStorageChange] has no
    dependencies: it runs after the first render, and [filters] in the two
    functions is the variable of that render. *)
Definition filtersAtMount : Filters.t := State.filters State.initial.

(** [handleStorageChange(e)]. Whatever the [try] block throws is caught
    and logged. *)
Definition handleStorageChange (b : browser) (clocks : nat -> clock)
    (filters : Filters.t) (e : StorageEvent.t) (st : State.t) : State.t :=
  match StorageEvent.key e with
  | Some "tasks" =>
      let text :=                                   (* e.newValue || '[]' *)
        match StorageEvent.newValue e with
        | Some s => if String.eqb s "" then "[]" else s
        | None => "[]"
        end in
      match jsonParse b text with
      | None => st
      | Some updatedTasks =>
          match normalizeAll clocks updatedTasks with
          | Throw _ => st
          | Ok normalizedTasks => (showTasks normalizedTasks filters st).1
          end
      end
  | _ => st
  end.

(** The literal [sampleTasks]; the reads of the clock while it is built
    are taken at one instant. *)
Definition sampleTasks (b : browser) : value :=
  let at_ (d : Z) := VStr (toISOString b (dateNow b + d)) in
  VArr [
    VObj [("_id", VStr "1");
          ("title", VStr "Complete project documentation");
          ("description",
             VStr "Write comprehensive documentation for the new feature");
          ("status", VStr "incomplete");
          ("priority", VStr "high");
          ("dueDate", at_ 86400000%Z);
          ("createdAt", at_ 0%Z)];
    VObj [("_id", VStr "2");
          ("title", VStr "Fix navigation bug");
          ("description",
             VStr "Address the issue with sidebar navigation on mobile devices");
          ("status", VStr "complete");
          ("priority", VStr "medium");
          ("dueDate", at_ 0%Z);
          ("createdAt", at_ (-86400000)%Z)];
    VObj [("_id", VStr "3");
          ("title", VStr "Implement user feedback");
          ("description",
             VStr "Add the user feedback form to the dashboard");
          ("status", VStr "incomplete");
          ("priority", VStr "low");
          ("dueDate", at_ 172800000%Z);
          ("createdAt", at_ (-172800000)%Z)]
  ].

Definition loadFailed : string :=
  "Failed to load tasks. Please try again later.".

(** [loadTasks()], after its delay. The result is the state and the text
    written under the key [tasks], if any. *)
Definition loadTasks (b : browser) (clocks : nat -> clock)
    (filters : Filters.t) (st : State.t) : State.t * option string :=
  let failed st := (setLoading false (setError (Some loadFailed) st), None) in
  match getItemTasks b with
  | None => failed st
  | Some storedTasks =>
      let text := default "" storedTasks in
      if negb (String.eqb text "") then               (* if (storedTasks) *)
        match jsonParse b text with
        | None => failed st
        | Some parsedTasks =>
            match normalizeAll clocks parsedTasks with
            | Throw _ => failed st
            | Ok normalizedTasks =>
                match showTasks normalizedTasks filters st with
                | (st, false) => failed st
                | (st, true) => (setLoading false (setError None st), None)
                end
            end
        end
      else
        match normalizeAll clocks (sampleTasks b) with
        | Throw _ => failed st
        | Ok normalizedSampleTasks =>
            match showTasks normalizedSampleTasks filters st with
            | (st, false) => failed st
            | (st, true) =>
                if setItemSucceeds b then
                  (setLoading false (setError None st),
                   Some (jsonStringify b (sampleTasks b)))
                else failed st
            end
        end
  end.

(** ** Notions used by the statements *)

(** "Greater than 80", on every number: a finite value
    above 80, or positive infinity. *)
Definition above80 (p : number) : Prop :=
  match p with
  | NaN => False
  | Fin q => (80 < q)%Q
  | Inf negative => negative = false
  end.

(** Sample inputs. *)
Definition exampleClock : clock :=
  Clock "1700000000000" "2023-11-14T22:13:20.000Z".

(** A progress-based record: [{progress: p}]. *)
Definition progressTask (p : Q) : gmap string value :=
  {[ "progress" := VNum (Fin p) ]}.

(** A record carrying both shapes: [{status: s, progress: p}]. *)
Definition statusProgressTask (s : string) (p : Q) : gmap string value :=
  <[ "status" := VStr s ]> (progressTask p).

(** A record with a priority and nothing else: [{priority: p}]. *)
Definition priorityTask (p : string) : gmap string value :=
  {[ "priority" := VStr p ]}.

(** A task as [normalizeTask] returns it. *)
Definition normalized (t : gmap string value) : Prop :=
  exists clk raw, t = normalizeTask clk raw.

(** [hay] has a piece that equals [needle] up to the case of its letters. *)
Definition containsIgnoringCase (hay needle : string) : Prop :=
  exists pre mid post,
    hay = pre +:+ mid +:+ post /\ toLowerCase mid = toLowerCase needle.

(** The text of a field, empty when the field holds no string. *)
Definition textOf (t : gmap string value) (k : string) : string :=
  match get t k with
  | VStr s => s
  | _ => ""
  end.

(** A field that holds a string or is missing: absent, [null], or any other
    falsy value. *)
Definition textOrFalsy (v : value) : Prop :=
  toBoolean v = false \/ exists s, v = VStr s.

(** The canonical form of the data model: the fields the filters read as
    text hold strings. *)
Definition canonical (t : gmap string value) : Prop :=
  (exists s, get t "title" = VStr s)
  /\ (exists s, get t "description" = VStr s)
  /\ (exists s, get t "priority" = VStr s)
  /\ (exists s, get t "assignedTo" = VStr s).

(** [needle] occurs, up to case, in the title, the description or the
    assignee of [t]. *)
Definition matchesSearch (needle : string) (t : gmap string value) : Prop :=
  containsIgnoringCase (textOf t "title") needle
  \/ containsIgnoringCase (textOf t "description") needle
  \/ containsIgnoringCase (textOf t "assignedTo") needle.

(** The search and priority callbacks on a canonical task, where they
    cannot throw, as plain tests. *)
Definition searchKeeps (searchTerm : string) (t : gmap string value) : bool :=
  includes (toLowerCase (textOf t "title")) searchTerm
  || includes (toLowerCase (textOf t "description")) searchTerm
  || includes (toLowerCase (textOf t "assignedTo")) searchTerm.

Definition priorityKeeps (priority : string) (t : gmap string value) : bool :=
  negb (String.eqb (textOf t "priority") "")
  && String.eqb (toLowerCase (textOf t "priority")) (toLowerCase priority).

(** The record of the spec's search example:
    [{title: "Fix Bug", description: "", assignedTo: "Alice"}]. *)
Definition fixBugTask : gmap string value :=
  {[ "title" := VStr "Fix Bug"; "description" := VStr "";
     "assignedTo" := VStr "Alice" ]}.

(** The three criteria as one test on a canonical task. *)
Definition keptBy (filterSettings : Filters.t) (t : gmap string value)
  : bool :=
  (String.eqb (Filters.status filterSettings) "all"
   || strict_eq_string (get t "status") (Filters.status filterSettings))
  && (String.eqb (Filters.priority filterSettings) "all"
      || priorityKeeps (Filters.priority filterSettings) t)
  && (String.eqb (trim (Filters.search filterSettings)) ""
      || searchKeeps (toLowerCase (trim (Filters.search filterSettings))) t).

(** A priority that makes the priority callback throw: truthy and not a
    string. *)
Definition badPriority (t : gmap string value) : Prop :=
  toBoolean (get t "priority") = true
  /\ forall s, get t "priority" <> VStr s.

(** The filtered list is what the criteria of the state give on the tasks
    of the state. *)
Definition coherent (st : State.t) : Prop :=
  applyFilters (State.tasks st) (State.filters st) st = Ok st.

(** A state holding two canonical tasks. *)
Definition exampleState : State.t :=
  setTasks [normalizeTask exampleClock fixBugTask;
            normalizeTask exampleClock (progressTask 81)]
           State.initial.

(** A browser whose [JSON.parse] reads the text of the empty array only. *)
Definition emptyArrayBrowser : browser :=
  {| jsonParse s := if String.eqb s "[]" then Some (VArr []) else None;
     jsonStringify _ := "[]";
     getItemTasks := Some None;
     setItemSucceeds := true;
     dateNow := 1700000000000;
     toISOString _ := "2023-11-14T22:13:20.000Z" |}.

(** A browser on a first visit, with nothing stored; its [JSON.stringify]
    is a stand-in that prints one fixed text. *)
Definition firstVisitBrowser : browser :=
  {| jsonParse _ := None;
     jsonStringify _ := "[three sample tasks]";
     getItemTasks := Some None;
     setItemSucceeds := true;
     dateNow := 1700000000000;
     toISOString _ := "2023-11-14T22:13:20.000Z" |}.

(** The browser on the next visit: the text written on the first visit is
    stored, and [JSON.parse] reads it back. *)
Definition nextVisitBrowser : browser :=
  {| jsonParse s :=
       if String.eqb s "[three sample tasks]"
       then Some (sampleTasks firstVisitBrowser) else None;
     jsonStringify _ := "[three sample tasks]";
     getItemTasks := Some (Some "[three sample tasks]");
     setItemSucceeds := true;
     dateNow := 1700090000000;
     toISOString _ := "2023-11-15T23:13:20.000Z" |}.

(** The nine names of a normalised task. *)
Definition normalizedKeys : gset string :=
  {[ "id"; "title"; "description"; "status"; "priority"; "dueDate";
     "createdAt"; "progress"; "assignedTo" ]}.

(** A legacy record: [{_id: i, deadline: d, owner: o}]. *)
Definition legacyTask (i d o : string) : gmap string value :=
  {[ "_id" := VStr i; "deadline" := VStr d; "owner" := VStr o ]}.

(** [needle] is a piece of [hay], code unit by code unit. *)
Definition substringOf (needle hay : string) : Prop :=
  exists pre post, hay = pre +:+ needle +:+ post.

(** [needle] is a piece of the lower-cased title, description or assignee
    of [t]. *)
Definition lowerCasedMatch (needle : string) (t : gmap string value) : Prop :=
  substringOf needle (toLowerCase (textOf t "title"))
  \/ substringOf needle (toLowerCase (textOf t "description"))
  \/ substringOf needle (toLowerCase (textOf t "assignedTo")).

(** The text a storage event is read from: [e.newValue || '[]']. *)
Definition eventText (e : StorageEvent.t) : string :=
  match StorageEvent.newValue e with
  | Some s => if String.eqb s "" then "[]" else s
  | None => "[]"
  end.

(** [null] and [undefined], on which a property read throws. *)
Definition nullish (v : value) : Prop := v = VNull \/ v = VUndefined.

(** A due date the host can read, with its time value. *)
Definition dueAt (h : host) (dueDate : value) (t : Z) : Prop :=
  toBoolean dueDate = true /\ dateValue h dueDate = Some t.

(** A value that is neither missing nor a string. *)
Definition notText (v : value) : Prop :=
  v <> VUndefined /\ v <> VNull /\ forall s, v <> VStr s.

(** A record with a numeric priority: [{priority: n}]. *)
Definition numericPriorityTask (n : Q) : gmap string value :=
  {[ "priority" := VNum (Fin n) ]}.

(** * Properties *)

(** ** Values *)

Lemma number_gt_Fin (a b : Q) :
  number_gt (Fin a) (Fin b) = true <-> (b < a)%Q.
Proof.
  simpl. rewrite negb_true_iff, <- not_true_iff_false, Qle_bool_iff.
  split; [apply Qnot_le_lt | apply Qlt_not_le].
Qed.

Lemma typeof_number (v : value) :
  typeof v = "number" <-> exists n, v = VNum n.
Proof. destruct v; simpl; split; try done; by eauto || intros [? ?]. Qed.

Lemma or_else_truthy (a b : value) : toBoolean a = true -> a ||' b = a.
Proof. unfold or_else. by intros ->. Qed.

Lemma or_else_falsy (a b : value) : toBoolean a = false -> a ||' b = b.
Proof. unfold or_else. by intros ->. Qed.

(** A default applied twice is applied once. *)
Lemma or_else_twice (a b : value) : (a ||' b) ||' b = a ||' b.
Proof. unfold or_else. destruct (toBoolean a) eqn:Ha; [by rewrite Ha|]. by destruct (toBoolean b). Qed.

(** The same through a second alternative that is falsy. *)
Lemma or_else_twice_via (a u b : value) :
  toBoolean u = false -> ((a ||' b) ||' u) ||' b = a ||' b.
Proof.
  intros Hu. unfold or_else.
  destruct (toBoolean a) eqn:Ha; [by rewrite !Ha|].
  destruct (toBoolean b) eqn:Hb; [by rewrite Hb|]. by rewrite Hu.
Qed.

Lemma get_Some (o : gmap string value) k v : o !! k = Some v -> get o k = v.
Proof. unfold get. by intros ->. Qed.

Lemma get_None (o : gmap string value) k : o !! k = None -> get o k = VUndefined.
Proof. unfold get. by intros ->. Qed.

(** ** normalizeTask *)

Section NormalizedFields.
Context (clk : clock) (task : gmap string value).

Lemma normalized_id :
  get (normalizeTask clk task) "id"
  = get task "id" ||' get task "_id" ||' VStr (dateNowString clk).
Proof. reflexivity. Qed.

Lemma normalized_title :
  get (normalizeTask clk task) "title"
  = get task "title" ||' VStr "Untitled Task".
Proof. reflexivity. Qed.

Lemma normalized_description :
  get (normalizeTask clk task) "description"
  = get task "description" ||' VStr "".
Proof. reflexivity. Qed.

Lemma normalized_status :
  get (normalizeTask clk task) "status" = VStr (normalizedStatus task).
Proof. reflexivity. Qed.

Lemma normalized_priority :
  get (normalizeTask clk task) "priority"
  = get task "priority" ||' VStr "medium".
Proof. reflexivity. Qed.

Lemma normalized_dueDate :
  get (normalizeTask clk task) "dueDate"
  = get task "dueDate" ||' get task "deadline" ||' VNull.
Proof. reflexivity. Qed.

Lemma normalized_createdAt :
  get (normalizeTask clk task) "createdAt"
  = get task "createdAt" ||' VStr (isoNowString clk).
Proof. reflexivity. Qed.

Lemma normalized_progress :
  get (normalizeTask clk task) "progress"
  = get task "progress" ||'
    VNum (Fin (if String.eqb (normalizedStatus task) "complete"
               then 100 else 0)).
Proof. reflexivity. Qed.

Lemma normalized_assignedTo :
  get (normalizeTask clk task) "assignedTo"
  = get task "assignedTo" ||' VStr "Unassigned".
Proof. reflexivity. Qed.

(** The object literal has no [_id] and no [deadline]. *)
Lemma normalized__id : get (normalizeTask clk task) "_id" = VUndefined.
Proof. reflexivity. Qed.

Lemma normalized_deadline :
  get (normalizeTask clk task) "deadline" = VUndefined.
Proof. reflexivity. Qed.

(** Completion has two states and no third. *)
Lemma normalizedStatus_cases :
  normalizedStatus task = "complete" \/ normalizedStatus task = "incomplete".
Proof.
  unfold normalizedStatus.
  repeat case_match; auto.
Qed.

Lemma normalizedStatus_normalized :
  normalizedStatus (normalizeTask clk task) = normalizedStatus task.
Proof.
  unfold normalizedStatus at 1. rewrite normalized_status.
  by destruct normalizedStatus_cases as [-> | ->].
Qed.
End NormalizedFields.

Lemma number_gt_80 (p : number) : number_gt p (Fin 80) = true <-> above80 p.
Proof.
  destruct p as [|q|[]]; simpl above80.
  - done.
  - apply number_gt_Fin.
  - done.
  - done.
Qed.

(** Without a [status] field the status follows the progress. *)
Lemma normalizedStatus_progress (task : gmap string value) (p : number) :
  task !! "status" = None ->
  task !! "progress" = Some (VNum p) ->
  normalizedStatus task
  = if number_gt p (Fin 80) then "complete" else "incomplete".
Proof.
  intros Hs Hp. unfold normalizedStatus.
  by rewrite (get_None _ _ Hs), (get_Some _ _ _ Hp).
Qed.

(** C1. For a raw task with a numeric progress [p] and no status field,
    [normalizeTask] gives status ['complete'] exactly when [p > 80], and
    ['incomplete'] otherwise; progress 80 gives ['incomplete'] and progress
    81 gives ['complete']. *)
Theorem C1_progress_threshold (clk : clock) (task : gmap string value)
    (p : number) :
  task !! "status" = None ->
  task !! "progress" = Some (VNum p) ->
  (get (normalizeTask clk task) "status" = VStr "complete" <-> above80 p)
  /\ (get (normalizeTask clk task) "status" = VStr "incomplete"
      <-> ~ above80 p)
  /\ (p = Fin 80 -> get (normalizeTask clk task) "status" = VStr "incomplete")
  /\ (p = Fin 81 -> get (normalizeTask clk task) "status" = VStr "complete").
Proof.
  intros Hs Hp. rewrite normalized_status.
  rewrite (normalizedStatus_progress _ _ Hs Hp), <- number_gt_80.
  split_and!.
  - destruct (number_gt p (Fin 80)); naive_solver.
  - destruct (number_gt p (Fin 80)); naive_solver.
  - by intros ->.
  - by intros ->.
Qed.

Lemma C1_progress_threshold_witness :
  get (normalizeTask exampleClock (progressTask 81)) "status"
  = VStr "complete".
Proof.
  refine (proj2 (proj2 (proj2
    (C1_progress_threshold _ (progressTask 81) (Fin 81) _ _))) _);
    reflexivity.
Defined.

(** C2 as stated fails: two records with the same status field ['pending']
    and numeric progress 90 and 10 normalise to different statuses, so the
    status field alone does not decide. *)
Lemma C2_status_field_alone_counterexample :
  statusProgressTask "pending" 90 !! "status"
  = statusProgressTask "pending" 10 !! "status"
  /\ get (normalizeTask exampleClock (statusProgressTask "pending" 90))
         "status" = VStr "complete"
  /\ get (normalizeTask exampleClock (statusProgressTask "pending" 10))
         "status" = VStr "incomplete".
Proof. split_and!; reflexivity. Qed.

(** C2, amended. For a raw task with a status field and a numeric
    progress: when the status field is the string ['complete'] or
    ['incomplete'], the normalised status is that status field, whatever
    the progress; a status field holding any other value is ignored, and
    the progress threshold decides. *)
Theorem C2_explicit_status_wins (clk : clock) (task : gmap string value)
    (v : value) (p : number) :
  task !! "status" = Some v ->
  task !! "progress" = Some (VNum p) ->
  (forall s, v = VStr s -> s = "complete" \/ s = "incomplete" ->
             get (normalizeTask clk task) "status" = VStr s)
  /\ (v <> VStr "complete" -> v <> VStr "incomplete" ->
      (get (normalizeTask clk task) "status" = VStr "complete"
       <-> above80 p)
      /\ (get (normalizeTask clk task) "status" = VStr "incomplete"
          <-> ~ above80 p)).
Proof.
  intros Hs Hp. rewrite normalized_status. unfold normalizedStatus.
  rewrite (get_Some _ _ _ Hs), (get_Some _ _ _ Hp). split.
  - intros s -> Hlit. by destruct Hlit as [-> | ->].
  - intros Hc Hi.
    assert (strict_eq_string v "complete" = false) as ->.
    { destruct v; try done. simpl. apply String.eqb_neq. congruence. }
    assert (strict_eq_string v "incomplete" = false) as ->.
    { destruct v; try done. simpl. apply String.eqb_neq. congruence. }
    rewrite <- number_gt_80.
    destruct (number_gt p (Fin 80)); split; split; try done; by intros [].
Qed.

Lemma C2_explicit_status_wins_witness :
  get (normalizeTask exampleClock (statusProgressTask "incomplete" 95))
      "status" = VStr "incomplete".
Proof.
  refine (proj1 (C2_explicit_status_wins exampleClock
                   (statusProgressTask "incomplete" 95)
                   (VStr "incomplete") (Fin 95) _ _)
                "incomplete" _ _).
  - reflexivity.
  - reflexivity.
  - reflexivity.
  - right; reflexivity.
Defined.

(** C3. [normalizeTask] is idempotent under a fixed clock and id source:
    normalising a normalised record gives the same record, field for
    field. *)
Theorem C3_normalize_idempotent (clk : clock) (task : gmap string value) :
  normalizeTask clk (normalizeTask clk task) = normalizeTask clk task.
Proof.
  unfold normalizeTask at 1.
  rewrite normalizedStatus_normalized.
  rewrite normalized_id, normalized__id, normalized_title,
    normalized_description, normalized_priority, normalized_dueDate,
    normalized_deadline, normalized_createdAt, normalized_progress,
    normalized_assignedTo.
  rewrite !or_else_twice.
  rewrite !(or_else_twice_via _ VUndefined) by reflexivity.
  reflexivity.
Qed.

(** Even when the clock moves between the two passes nothing drifts, as
    long as the clock prints non-empty texts. *)
Lemma normalize_twice_any_clock (clk clk' : clock)
    (task : gmap string value) :
  dateNowString clk <> "" -> isoNowString clk <> "" ->
  normalizeTask clk' (normalizeTask clk task) = normalizeTask clk task.
Proof.
  intros Hid Hiso.
  assert (forall a s, s <> "" -> toBoolean (a ||' VStr s) = true) as Htruthy.
  { intros a s Hs. unfold or_else. destruct (toBoolean a) eqn:Ha; [done|].
    simpl. by apply negb_true_iff, String.eqb_neq. }
  unfold normalizeTask at 1.
  rewrite normalizedStatus_normalized.
  rewrite normalized_id, normalized__id, normalized_title,
    normalized_description, normalized_priority, normalized_dueDate,
    normalized_deadline, normalized_createdAt, normalized_progress,
    normalized_assignedTo.
  rewrite !or_else_twice.
  rewrite (or_else_twice_via _ VUndefined VNull) by reflexivity.
  rewrite (or_else_truthy (_ ||' VStr (dateNowString clk)) VUndefined),
    (or_else_truthy (_ ||' VStr (dateNowString clk))),
    (or_else_truthy (_ ||' VStr (isoNowString clk))) by auto.
  reflexivity.
Qed.

(** A raw record whose text fields hold strings, or nothing, normalises to
    the canonical form. *)
Lemma canonical_normalizeTask (clk : clock) (raw : gmap string value) :
  textOrFalsy (get raw "title") -> textOrFalsy (get raw "description") ->
  textOrFalsy (get raw "priority") -> textOrFalsy (get raw "assignedTo") ->
  canonical (normalizeTask clk raw).
Proof.
  assert (forall v s, textOrFalsy v -> exists s', v ||' VStr s = VStr s')
    as Htext.
  { intros v s [Hf | [s' ->]].
    - rewrite (or_else_falsy _ _ Hf). by eexists.
    - unfold or_else. case_match; by eexists. }
  intros Ht Hd Hp Ha. unfold canonical.
  rewrite normalized_title, normalized_description, normalized_priority,
    normalized_assignedTo.
  split_and!; by apply Htext.
Qed.

(** C9 as stated fails: a priority outside high, medium and low is kept,
    not replaced by ['medium']. *)
Lemma C9_unrecognized_priority_counterexample :
  get (normalizeTask exampleClock (priorityTask "urgent")) "priority"
  = VStr "urgent"
  /\ VStr "urgent" <> VStr "medium"
  /\ "urgent" <> "high" /\ "urgent" <> "medium" /\ "urgent" <> "low".
Proof. split_and!; done. Qed.

(** C9, amended. [normalizeTask] assigns priority ['medium'] when the
    priority field is absent or falsy ([null], the empty string, ...), and
    keeps every other priority value as it is; so high, medium and low are
    kept. *)
Theorem C9_priority_default (clk : clock) (task : gmap string value) :
  (task !! "priority" = None ->
   get (normalizeTask clk task) "priority" = VStr "medium")
  /\ (toBoolean (get task "priority") = false ->
      get (normalizeTask clk task) "priority" = VStr "medium")
  /\ (toBoolean (get task "priority") = true ->
      get (normalizeTask clk task) "priority" = get task "priority")
  /\ (forall p, p = "high" \/ p = "medium" \/ p = "low" ->
      task !! "priority" = Some (VStr p) ->
      get (normalizeTask clk task) "priority" = VStr p).
Proof.
  rewrite normalized_priority. split_and!.
  - intros H. by rewrite (get_None _ _ H).
  - apply or_else_falsy.
  - apply or_else_truthy.
  - intros p Hp H. rewrite (get_Some _ _ _ H).
    by destruct Hp as [-> | [-> | ->]].
Qed.

(** C10. For a raw task with status ['complete'] and a numeric progress
    of 0, [normalizeTask] returns progress 100: the zero is falsy and the
    synthesised value replaces it. *)
Theorem C10_zero_progress_overwritten (clk : clock)
    (task : gmap string value) (q : Q) :
  task !! "status" = Some (VStr "complete") ->
  task !! "progress" = Some (VNum (Fin q)) ->
  (q == 0)%Q ->
  get (normalizeTask clk task) "progress" = VNum (Fin 100).
Proof.
  intros Hs Hp Hq. rewrite normalized_progress.
  assert (normalizedStatus task = "complete") as ->.
  { unfold normalizedStatus. by rewrite (get_Some _ _ _ Hs). }
  rewrite (get_Some _ _ _ Hp).
  apply or_else_falsy. simpl.
  apply negb_false_iff, Qeq_bool_iff, Hq.
Qed.

Lemma C10_zero_progress_overwritten_witness :
  get (normalizeTask exampleClock (statusProgressTask "complete" 0))
      "progress" = VNum (Fin 100).
Proof.
  apply (C10_zero_progress_overwritten exampleClock
           (statusProgressTask "complete" 0) 0); reflexivity.
Defined.

(** ** updateCounts *)

(** The two status tests split a list whose statuses are all one of the
    two literals. *)
Lemma status_partition (l : list (gmap string value)) :
  Forall (fun t => get t "status" = VStr "complete"
                   \/ get t "status" = VStr "incomplete") l ->
  length (List.filter
            (fun t => strict_eq_string (get t "status") "complete") l)
  + length (List.filter
              (fun t => strict_eq_string (get t "status") "incomplete") l)
  = length l.
Proof.
  induction 1 as [|t l Ht _ IH]; [done|].
  simpl. destruct Ht as [-> | ->]; simpl; lia.
Qed.

Lemma normalized_status_cases (t : gmap string value) :
  normalized t ->
  get t "status" = VStr "complete" \/ get t "status" = VStr "incomplete".
Proof.
  intros (clk & raw & ->). rewrite normalized_status.
  destruct (normalizedStatus_cases raw) as [-> | ->]; auto.
Qed.

(** C6. For every list of normalised tasks the counts set by
    [updateCounts] satisfy [all = length] and
    [complete + incomplete = all]. *)
Theorem C6_counts_partition (taskList : list (gmap string value))
    (st : State.t) :
  Forall normalized taskList ->
  let c := State.counts (updateCounts taskList st) in
  Counts.all c = length taskList
  /\ Counts.complete c + Counts.incomplete c = Counts.all c.
Proof.
  intros Hn. simpl. split; [done|].
  apply status_partition.
  eapply Forall_impl; [exact Hn|]. apply normalized_status_cases.
Qed.

(** ** Strings *)

Lemma append_String (c : ascii) (a b : string) :
  String c a +:+ b = String c (a +:+ b).
Proof. reflexivity. Qed.

Lemma append_empty (b : string) : "" +:+ b = b.
Proof. reflexivity. Qed.

Lemma prefix_spec (a b : string) :
  String.prefix a b = true <-> exists post, b = a +:+ post.
Proof.
  revert b. induction a as [|c a IH]; intros b.
  - split; [by exists b | by destruct b].
  - setoid_rewrite append_String. destruct b as [|d b]; simpl.
    + split; [done | by intros [? ?]].
    + destruct (ascii_dec c d) as [-> | Hne].
      * rewrite IH. split; intros [post H]; exists post; congruence.
      * split; [done | intros [post H]; congruence].
Qed.

Lemma includes_empty (needle : string) :
  includes "" needle = String.prefix needle "" || false.
Proof. reflexivity. Qed.

Lemma includes_String (c : ascii) (hay needle : string) :
  includes (String c hay) needle
  = String.prefix needle (String c hay) || includes hay needle.
Proof. reflexivity. Qed.

(** [includes] finds the needle exactly when the hay splits around it. *)
Lemma includes_spec (hay needle : string) :
  includes hay needle = true
  <-> exists pre post, hay = pre +:+ needle +:+ post.
Proof.
  induction hay as [|c hay IH];
    [rewrite includes_empty | rewrite includes_String];
    rewrite orb_true_iff, prefix_spec.
  - split.
    + intros [[post H] | ?]; [|done]. by exists "", post.
    + intros ([|? ?] & post & H); [|done]. left. by exists post.
  - rewrite IH. split.
    + intros [[post H] | (pre & post & H)].
      * by exists "", post.
      * exists (String c pre), post. by rewrite append_String, H.
    + intros ([|d pre] & post & H).
      * left. by exists post.
      * right. exists pre, post. rewrite append_String in H. congruence.
Qed.

Lemma toLowerCase_app (a b : string) :
  toLowerCase (a +:+ b) = toLowerCase a +:+ toLowerCase b.
Proof.
  induction a as [|c a IH]; [done|].
  rewrite append_String. simpl. by rewrite IH.
Qed.

Lemma toLowerCase_app_inv (s a b : string) :
  toLowerCase s = a +:+ b ->
  exists a' b', s = a' +:+ b' /\ toLowerCase a' = a /\ toLowerCase b' = b.
Proof.
  revert s. induction a as [|c a IH]; intros s H.
  - by exists "", s.
  - rewrite append_String in H. destruct s as [|d s]; [done|]. simpl in H.
    injection H as Hc Hs. destruct (IH _ Hs) as (a' & b' & -> & <- & <-).
    exists (String d a'), b'. simpl. by rewrite Hc.
Qed.
Lemma lowerChar_idemp (c : ascii) : lowerChar (lowerChar c) = lowerChar c.
Proof. by destruct c as [[] [] [] [] [] [] [] []]. Qed.

Lemma isWhiteSpace_lowerChar (c : ascii) :
  isWhiteSpace (lowerChar c) = isWhiteSpace c.
Proof. by destruct c as [[] [] [] [] [] [] [] []]. Qed.

Lemma toLowerCase_idemp (s : string) :
  toLowerCase (toLowerCase s) = toLowerCase s.
Proof. induction s as [|c s IH]; simpl; [done|]. by rewrite lowerChar_idemp, IH. Qed.

Lemma trimStart_toLowerCase (s : string) :
  trimStart (toLowerCase s) = toLowerCase (trimStart s).
Proof.
  induction s as [|c s IH]; simpl; [done|].
  rewrite isWhiteSpace_lowerChar. by destruct (isWhiteSpace c).
Qed.

Lemma trimEnd_toLowerCase (s : string) :
  trimEnd (toLowerCase s) = toLowerCase (trimEnd s).
Proof.
  induction s as [|c s IH]; simpl; [done|].
  rewrite IH, isWhiteSpace_lowerChar.
  destruct (trimEnd s); simpl; [by destruct (isWhiteSpace c) | done].
Qed.

(** Lower-casing and trimming commute: white space has no case. *)
Lemma trim_toLowerCase (s : string) :
  trim (toLowerCase s) = toLowerCase (trim s).
Proof. unfold trim. by rewrite trimStart_toLowerCase, trimEnd_toLowerCase. Qed.

Lemma toLowerCase_empty (s : string) : toLowerCase s = "" <-> s = "".
Proof. by destruct s. Qed.

(** [includes] on lower-cased operands is the substring test up to case. *)
Lemma includes_toLowerCase (hay needle : string) :
  includes (toLowerCase hay) (toLowerCase needle) = true
  <-> containsIgnoringCase hay needle.
Proof.
  rewrite includes_spec. unfold containsIgnoringCase. split.
  - intros (pre & post & H).
    apply toLowerCase_app_inv in H as (pre' & rest & -> & _ & H).
    apply toLowerCase_app_inv in H as (mid & post' & -> & H & _).
    by exists pre', mid, post'.
  - intros (pre & mid & post & -> & H).
    exists (toLowerCase pre), (toLowerCase post).
    by rewrite !toLowerCase_app, H.
Qed.

(** ** Filtering *)

Lemma strict_eq_string_spec (v : value) (s : string) :
  strict_eq_string v s = true <-> v = VStr s.
Proof.
  destruct v; simpl; try (split; [done | by intros ?]).
  rewrite String.eqb_eq. split; congruence.
Qed.

Lemma List_filter_sublist {A} (p : A -> bool) (l : list A) :
  List.filter p l `sublist_of` l.
Proof.
  induction l as [|x l IH]; simpl; [constructor|].
  destruct (p x); by constructor.
Qed.

Lemma Forall_sublist {A} (P : A -> Prop) (l1 l2 : list A) :
  l1 `sublist_of` l2 -> Forall P l2 -> Forall P l1.
Proof.
  induction 1 as [|x l1 l2 _ IH|x l1 l2 _ IH]; intros H; [done|..].
  - inversion_clear H. constructor; auto.
  - inversion_clear H. auto.
Qed.

Lemma List_filter_Forall {A} (p : A -> bool) (l : list A) :
  Forall (fun x => p x = true) (List.filter p l).
Proof.
  induction l as [|x l IH]; simpl; [constructor|].
  destruct (p x) eqn:Hx; [by constructor | done].
Qed.

(** What [filterM] returns, when it returns, keeps the order of its input. *)
Lemma filterM_sublist {A} (p : A -> outcome bool) (l r : list A) :
  filterM p l = Ok r -> r `sublist_of` l.
Proof.
  revert r. induction l as [|x l IH]; intros r; simpl.
  - intros [= <-]. constructor.
  - destruct (p x) as [b|e]; simpl; [|done].
    destruct (filterM p l) as [r'|e]; simpl; [|done].
    intros [= <-]. destruct b; constructor; by apply IH.
Qed.

(** A callback that never throws makes [filterM] the plain filter. *)
Lemma filterM_pure {A} (p : A -> outcome bool) (q : A -> bool) (l : list A) :
  Forall (fun x => p x = Ok (q x)) l ->
  filterM p l = Ok (List.filter q l).
Proof.
  induction 1 as [|x l Hx _ IH]; simpl; [done|].
  by rewrite Hx, IH.
Qed.

Lemma includes_empty_hay (needle : string) :
  needle <> "" -> includes "" needle = false.
Proof. by destruct needle. Qed.

Lemma searchMatches_canonical (searchTerm : string) (t : gmap string value) :
  canonical t -> searchTerm <> "" ->
  searchMatches searchTerm t = Ok (searchKeeps searchTerm t).
Proof.
  intros ([a Ha] & [b Hb] & _ & [c Hc]) Hne.
  unfold searchMatches, searchKeeps, textOf. rewrite Ha, Hb, Hc. simpl.
  destruct (includes (toLowerCase a) searchTerm); [done|].
  destruct (includes (toLowerCase b) searchTerm); [done|]. simpl.
  destruct c as [|ch c]; [|done].
  change (toLowerCase "") with "". by rewrite (includes_empty_hay _ Hne).
Qed.

Lemma priorityMatches_canonical (priority : string) (t : gmap string value) :
  canonical t ->
  priorityMatches priority t = Ok (priorityKeeps priority t).
Proof.
  intros (_ & _ & [a Ha] & _).
  unfold priorityMatches, priorityKeeps, textOf. rewrite Ha. simpl.
  by destruct (negb (String.eqb a "")).
Qed.

Lemma searchKeeps_spec (needle : string) (t : gmap string value) :
  searchKeeps (toLowerCase needle) t = true <-> matchesSearch needle t.
Proof.
  unfold searchKeeps, matchesSearch.
  rewrite !orb_true_iff, !includes_toLowerCase. tauto.
Qed.

(** A blank search leaves the list as it is, before any field is read. *)
Lemma searchFilter_blank (filterSettings : Filters.t)
    (l : list (gmap string value)) :
  trim (Filters.search filterSettings) = "" ->
  searchFilter filterSettings l = Ok l.
Proof. unfold searchFilter. by intros ->. Qed.

Lemma searchFilter_canonical (filterSettings : Filters.t)
    (l : list (gmap string value)) :
  trim (Filters.search filterSettings) <> "" ->
  Forall canonical l ->
  searchFilter filterSettings l
  = Ok (List.filter
          (searchKeeps (toLowerCase (trim (Filters.search filterSettings))))
          l).
Proof.
  intros Hne Hl. unfold searchFilter.
  apply String.eqb_neq in Hne as Hne'. rewrite Hne'. simpl.
  rewrite trim_toLowerCase. apply filterM_pure.
  eapply Forall_impl; [exact Hl|]. intros t Ht.
  apply searchMatches_canonical; [done|]. by rewrite toLowerCase_empty.
Qed.

Lemma statusFilter_sublist (filterSettings : Filters.t)
    (l : list (gmap string value)) :
  statusFilter filterSettings l `sublist_of` l.
Proof.
  unfold statusFilter. case_match; [apply List_filter_sublist | done].
Qed.

Lemma priorityFilter_sublist (filterSettings : Filters.t)
    (l r : list (gmap string value)) :
  priorityFilter filterSettings l = Ok r -> r `sublist_of` l.
Proof.
  unfold priorityFilter. case_match; [apply filterM_sublist|].
  by intros [= <-].
Qed.

Lemma searchFilter_sublist (filterSettings : Filters.t)
    (l r : list (gmap string value)) :
  searchFilter filterSettings l = Ok r -> r `sublist_of` l.
Proof.
  unfold searchFilter. case_match; [apply filterM_sublist|].
  by intros [= <-].
Qed.

Lemma priorityFilter_canonical (filterSettings : Filters.t)
    (l : list (gmap string value)) :
  Forall canonical l -> exists r, priorityFilter filterSettings l = Ok r.
Proof.
  intros Hl. unfold priorityFilter. case_match; [|by eexists].
  eexists. apply filterM_pure.
  eapply Forall_impl; [exact Hl|]. apply priorityMatches_canonical.
Qed.

(** The stages of a call of [applyFilters] that returns. *)
Lemma applyFilters_Ok (taskList : list (gmap string value))
    (filterSettings : Filters.t) (st st' : State.t) :
  applyFilters taskList filterSettings st = Ok st' ->
  exists r1 r2,
    priorityFilter filterSettings (statusFilter filterSettings taskList)
    = Ok r1
    /\ searchFilter filterSettings r1 = Ok r2
    /\ st' = setFilteredTasks r2 st.
Proof.
  unfold applyFilters.
  destruct (priorityFilter _ _) as [r1|e]; simpl; [|done].
  destruct (searchFilter _ r1) as [r2|e] eqn:H2; simpl; [|done].
  intros [= <-]. by exists r1, r2.
Qed.

(** On canonical lists [applyFilters] returns, whatever the criteria. *)
Lemma applyFilters_canonical (taskList : list (gmap string value))
    (filterSettings : Filters.t) (st : State.t) :
  Forall canonical taskList ->
  exists st', applyFilters taskList filterSettings st = Ok st'.
Proof.
  intros Hl. unfold applyFilters.
  pose proof (Forall_sublist _ _ _
                (statusFilter_sublist filterSettings taskList) Hl) as H0.
  destruct (priorityFilter_canonical filterSettings _ H0) as [r1 Hr1].
  rewrite Hr1. simpl.
  pose proof (Forall_sublist _ _ _
                (priorityFilter_sublist _ _ _ Hr1) H0) as H1.
  destruct (decide (trim (Filters.search filterSettings) = "")) as [Hb|Hb].
  - rewrite (searchFilter_blank _ _ Hb). by eexists.
  - rewrite (searchFilter_canonical _ _ Hb H1). by eexists.
Qed.

(** C4 as stated fails: the search text [" fix"] is no piece, up to case,
    of the title, description or assignee of the record, and the record is
    kept all the same, because the text is trimmed before it is compared. *)
Lemma C4_untrimmed_search_counterexample :
  searchFilter (Filters.Make "all" " fix" "all")
               [normalizeTask exampleClock fixBugTask]
  = Ok [normalizeTask exampleClock fixBugTask]
  /\ ~ matchesSearch " fix" (normalizeTask exampleClock fixBugTask).
Proof.
  split; [reflexivity|].
  rewrite <- searchKeeps_spec. by vm_compute.
Qed.

Lemma searchKeeps_substring (needle : string) (t : gmap string value) :
  searchKeeps needle t = true <-> lowerCasedMatch needle t.
Proof.
  unfold searchKeeps, lowerCasedMatch, substringOf.
  rewrite !orb_true_iff, !includes_spec. tauto.
Qed.

(** C4, amended. The search filter compares lower-cased texts: it keeps
    the tasks in which the search text, lower-cased and with the white
    space at its two ends removed, is a piece of the lower-cased title,
    description or assignee; the case of the search text does not matter;
    and an empty or white-space-only search text leaves every list
    unchanged, without reading any task. *)
Theorem C4_search_predicate (filterSettings : Filters.t)
    (taskList : list (gmap string value)) :
  Forall canonical taskList ->
  (forall l : list (gmap string value),
      trim (Filters.search filterSettings) = "" ->
      searchFilter filterSettings l = Ok l)
  /\ (trim (Filters.search filterSettings) <> "" ->
      exists keep,
        searchFilter filterSettings taskList = Ok (List.filter keep taskList)
        /\ forall t,
             keep t = true
             <-> lowerCasedMatch
                   (trim (toLowerCase (Filters.search filterSettings))) t)
  /\ searchFilter
       (Filters.Make (Filters.status filterSettings)
                     (toLowerCase (Filters.search filterSettings))
                     (Filters.priority filterSettings))
       taskList
     = searchFilter filterSettings taskList.
Proof.
  intros Hl. split_and!.
  - intros l. apply searchFilter_blank.
  - intros Hne. eexists. split; [by apply searchFilter_canonical|].
    intros t. rewrite trim_toLowerCase. apply searchKeeps_substring.
  - unfold searchFilter. simpl.
    rewrite trim_toLowerCase, toLowerCase_idemp.
    destruct (trim (Filters.search filterSettings)) eqn:E; [done|].
    by rewrite trim_toLowerCase, E.
Qed.

Lemma C4_search_predicate_witness :
  exists keep,
    searchFilter (Filters.Make "all" " fix" "all")
                 [normalizeTask exampleClock fixBugTask]
    = Ok (List.filter keep [normalizeTask exampleClock fixBugTask])
    /\ forall t,
         keep t = true
         <-> lowerCasedMatch (trim (toLowerCase " fix")) t.
Proof.
  refine (proj1 (proj2 (C4_search_predicate
                          (Filters.Make "all" " fix" "all")
                          [normalizeTask exampleClock fixBugTask] _)) _).
  - constructor; [|constructor].
    repeat split; eexists; reflexivity.
  - discriminate.
Defined.

(** The search example of the specification: ["fix"] and ["ALICE"] both
    return the record. *)
Lemma search_examples (st : State.t) :
  applyFilters [normalizeTask exampleClock fixBugTask]
               (Filters.Make "all" "fix" "all") st
  = Ok (setFilteredTasks [normalizeTask exampleClock fixBugTask] st)
  /\ applyFilters [normalizeTask exampleClock fixBugTask]
                  (Filters.Make "all" "ALICE" "all") st
     = Ok (setFilteredTasks [normalizeTask exampleClock fixBugTask] st)
  /\ applyFilters [normalizeTask exampleClock fixBugTask]
                  (Filters.Make "all" "bob" "all") st
     = Ok (setFilteredTasks [] st).
Proof. split_and!; reflexivity. Qed.

(** C7. With the default criteria (status ['all'], priority ['all'], empty
    search) [applyFilters] returns, and sets the filtered list to its input,
    unchanged and in the same order. *)
Theorem C7_default_criteria_identity (taskList : list (gmap string value))
    (st : State.t) :
  exists st',
    applyFilters taskList (Filters.Make "all" "" "all") st = Ok st'
    /\ State.filteredTasks st' = taskList.
Proof. eexists. split; reflexivity. Qed.

(** C8. With status ['complete'] and the other criteria at their defaults,
    [applyFilters] sets the filtered list to exactly the records whose
    status is ['complete']; under every combination of criteria the filtered
    list is the input with some records left out, in the input's order, and
    holds only complete records when the status criterion is ['complete'];
    and on canonical lists [applyFilters] returns under every combination
    of criteria. *)
Theorem C8_status_filter_subsequence (taskList : list (gmap string value))
    (st : State.t) :
  (exists keep,
      applyFilters taskList (Filters.Make "complete" "" "all") st
      = Ok (setFilteredTasks (List.filter keep taskList) st)
      /\ forall t, keep t = true <-> get t "status" = VStr "complete")
  /\ (forall filterSettings st',
        applyFilters taskList filterSettings st = Ok st' ->
        State.filteredTasks st' `sublist_of` taskList
        /\ (Filters.status filterSettings = "complete" ->
            Forall (fun t => get t "status" = VStr "complete")
                   (State.filteredTasks st')))
  /\ (forall filterSettings,
        Forall canonical taskList ->
        exists st', applyFilters taskList filterSettings st = Ok st').
Proof.
  split_and!.
  - eexists. split; [reflexivity|].
    intros t. apply strict_eq_string_spec.
  - intros fs st' (r1 & r2 & H1 & H2 & ->)%applyFilters_Ok. simpl.
    assert (r2 `sublist_of` statusFilter fs taskList) as Hsub.
    { etrans; [by eapply searchFilter_sublist|].
      by eapply priorityFilter_sublist. }
    split; [etrans; [exact Hsub | apply statusFilter_sublist]|].
    intros Hc. eapply Forall_sublist; [exact Hsub|].
    unfold statusFilter. rewrite Hc. simpl.
    eapply Forall_impl; [apply List_filter_Forall|].
    intros t. apply strict_eq_string_spec.
  - intros fs. apply applyFilters_canonical.
Qed.

Lemma normalized_normalizeTask (clk : clock) (raw : gmap string value) :
  normalized (normalizeTask clk raw).
Proof. by exists clk, raw. Qed.

Lemma C6_counts_partition_witness :
  let c :=
    State.counts
      (updateCounts
         [normalizeTask exampleClock (progressTask 81);
          normalizeTask exampleClock (statusProgressTask "incomplete" 95);
          normalizeTask exampleClock (priorityTask "urgent")]
         State.initial) in
  Counts.all c = 3 /\ Counts.complete c + Counts.incomplete c = Counts.all c.
Proof.
  apply (C6_counts_partition
           [normalizeTask exampleClock (progressTask 81);
            normalizeTask exampleClock (statusProgressTask "incomplete" 95);
            normalizeTask exampleClock (priorityTask "urgent")]
           State.initial).
  repeat (constructor; [apply normalized_normalizeTask|]). constructor.
Defined.

(** ** Dates *)

Lemma dateString_eqb_neq (h : host) (t now : Z) :
  dateString_eqb (toDateString h (Some t)) (toDateString h (Some now)) = false
  <-> localDay h t <> localDay h now.
Proof. simpl. apply Z.eqb_neq. Qed.

(** The time value the fixed-offset host reads from a well-formed text. *)
Lemma fixedOffsetHost_reads (off : Z) :
  dateValue (fixedOffsetHost off) (VStr "2024-01-01T08:00")
  = Some (1704096000000 - off)%Z
  /\ dateValue (fixedOffsetHost off) (VStr "2024-01-01T20:00")
     = Some (localTime off 2024 1 1 20 0)
  /\ dateValue (fixedOffsetHost off) (VStr "2024-01-02T00:01")
     = Some (localTime off 2024 1 2 0 1).
Proof. split_and!; reflexivity. Qed.

Lemma fixedOffsetHost_localDay (off x : Z) :
  localDay (fixedOffsetHost off) (x - off) = (x / msPerDay)%Z.
Proof. unfold localDay. simpl. by rewrite Z.sub_add. Qed.

(** C5. [isOverdue dueDate] is true exactly when [dueDate] is present
    (truthy), its time value is strictly before the current moment, and it
    falls on another local calendar day than the current moment. A due time
    of 2024-01-01T08:00 is not overdue at 2024-01-01T20:00 and is overdue
    at 2024-01-02T00:01. *)
Theorem C5_isOverdue (h : host) (now : Z) (dueDate : value) :
  (isOverdue h now dueDate = true
   <-> toBoolean dueDate = true
       /\ exists t, dateValue h dueDate = Some t
                    /\ (t < now)%Z
                    /\ localDay h t <> localDay h now)
  /\ (forall off,
        isOverdue (fixedOffsetHost off) (localTime off 2024 1 1 20 0)
                  (VStr "2024-01-01T08:00") = false)
  /\ (forall off,
        isOverdue (fixedOffsetHost off) (localTime off 2024 1 2 0 1)
                  (VStr "2024-01-01T08:00") = true).
Proof.
  split_and!.
  - unfold isOverdue.
    destruct (toBoolean dueDate); simpl;
      [|split; [done | by intros [? _]]].
    destruct (dateValue h dueDate) as [t|]; simpl;
      [|split; [done | by intros (_ & t & ? & _)]].
    rewrite andb_true_iff, negb_true_iff, Z.ltb_lt, Z.eqb_neq.
    split.
    + intros [Hlt Hday]. split; [done|]. by exists t.
    + by intros (_ & t' & [= <-] & Hlt & Hday).
  - intros off. unfold isOverdue.
    destruct (fixedOffsetHost_reads off) as (-> & _ & _).
    change (localTime off 2024 1 1 20 0) with (1704139200000 - off)%Z.
    cbn [toBoolean negb String.eqb date_lt toDateString].
    rewrite !fixedOffsetHost_localDay.
    apply andb_false_iff. right. reflexivity.
  - intros off. unfold isOverdue.
    destruct (fixedOffsetHost_reads off) as (-> & _ & _).
    change (localTime off 2024 1 2 0 1) with (1704153660000 - off)%Z.
    cbn [toBoolean negb String.eqb date_lt toDateString].
    rewrite !fixedOffsetHost_localDay.
    apply andb_true_iff. split; [apply Z.ltb_lt; lia | reflexivity].
Qed.

(** A due date that is overdue is not due today. *)
Lemma isOverdue_not_isDueToday (h : host) (now : Z) (dueDate : value) :
  isOverdue h now dueDate = true -> isDueToday h now dueDate = false.
Proof.
  unfold isOverdue, isDueToday.
  destruct (toBoolean dueDate); simpl; [|done].
  intros [_ H]%andb_true_iff. by apply negb_true_iff.
Qed.

(** * Further properties *)

(** ** Due dates *)

(** X1. [isDueToday dueDate] is true exactly when [dueDate] is present
    (truthy), the host reads a date from it, and that date falls on the
    local calendar day of the current moment; the time of day plays no
    part. *)
Theorem isDueToday_same_day (h : host) (now : Z) (dueDate : value) :
  (isDueToday h now dueDate = true
   <-> exists t, dueAt h dueDate t /\ localDay h t = localDay h now)
  /\ (forall t t' dueDate',
        dueAt h dueDate t -> dueAt h dueDate' t' ->
        localDay h t = localDay h t' ->
        isDueToday h now dueDate = isDueToday h now dueDate').
Proof.
  unfold isDueToday, dueAt. split.
  - destruct (toBoolean dueDate); simpl;
      [|split; [done | by intros (t & [? _] & _)]].
    destruct (dateValue h dueDate) as [t|]; simpl;
      [|split; [done | by intros (t & [_ ?] & _)]].
    rewrite Z.eqb_eq. split; [by exists t | by intros (t' & [_ [= <-]] & ?)].
  - intros t t' d' [-> ->] [-> ->] Hday. simpl. by rewrite Hday.
Qed.

(** X2. A due date that the host reads gets exactly one of three
    treatments: overdue (before now, on another day), due today (on the
    day of now), or neither, and then it is not before now. The two flags
    are never raised together. *)
Theorem due_flags_classification (h : host) (now t : Z) (dueDate : value) :
  dueAt h dueDate t ->
  (isOverdue h now dueDate = true /\ isDueToday h now dueDate = false
   /\ (t < now)%Z /\ localDay h t <> localDay h now)
  \/ (isOverdue h now dueDate = false /\ isDueToday h now dueDate = true
      /\ localDay h t = localDay h now)
  \/ (isOverdue h now dueDate = false /\ isDueToday h now dueDate = false
      /\ (now <= t)%Z /\ localDay h t <> localDay h now).
Proof.
  intros [Hb Ht]. unfold isOverdue, isDueToday. rewrite Hb, Ht. simpl.
  destruct (Z.eqb_spec (localDay h t) (localDay h now)) as [Heq | Hne].
  - right; left. by rewrite andb_false_r.
  - destruct (Z.ltb_spec t now) as [Hlt | Hge]; simpl.
    + by left.
    + by right; right.
Qed.

Lemma due_flags_classification_witness :
  isOverdue (fixedOffsetHost 0) (localTime 0 2024 1 2 0 1)
            (VStr "2024-01-01T08:00") = true
  \/ isDueToday (fixedOffsetHost 0) (localTime 0 2024 1 2 0 1)
                (VStr "2024-01-01T08:00") = true
  \/ (localTime 0 2024 1 2 0 1 <= 1704096000000)%Z.
Proof.
  destruct (due_flags_classification (fixedOffsetHost 0)
              (localTime 0 2024 1 2 0 1) 1704096000000
              (VStr "2024-01-01T08:00")) as [H | [H | H]].
  - split; reflexivity.
  - left. exact (proj1 H).
  - right; left. exact (proj1 (proj2 H)).
  - right; right. exact (proj1 (proj2 (proj2 H))).
Defined.

(** X3. A due date that is missing (falsy) or that the host cannot read
    is neither overdue nor due today. *)
Theorem unreadable_due_date_unflagged (h : host) (now : Z) (dueDate : value) :
  toBoolean dueDate = false \/ dateValue h dueDate = None ->
  isOverdue h now dueDate = false /\ isDueToday h now dueDate = false.
Proof.
  unfold isOverdue, isDueToday.
  intros [-> | ->]; [done|]. by destruct (toBoolean dueDate).
Qed.

Lemma unreadable_due_date_unflagged_witness :
  isOverdue (fixedOffsetHost 0) 1704096000000 (VStr "next week") = false
  /\ isDueToday (fixedOffsetHost 0) 1704096000000 (VStr "next week") = false.
Proof.
  apply (unreadable_due_date_unflagged (fixedOffsetHost 0) 1704096000000
           (VStr "next week")).
  right. reflexivity.
Defined.

(** ** Priority badges *)

Lemma callToLowerCase_Throw (v : value) :
  (exists e, callToLowerCase v = Throw e) <-> forall s, v <> VStr s.
Proof.
  destruct v; simpl; (split; [intros [e He] | intros H]);
    try done; try (by eexists).
  by destruct (H s).
Qed.

(** X4. [getPriorityClasses] throws a [TypeError] exactly on a value that
    is neither [undefined], [null] nor a string (so also on [0] and
    [false]); on every other value it returns one of its four class
    texts, and the grey one for [undefined] and [null]. *)
Theorem getPriorityClasses_outcome (priority : value) :
  (getPriorityClasses priority = Throw TypeError <-> notText priority)
  /\ (~ notText priority ->
      exists c, getPriorityClasses priority = Ok c
                /\ (c = "bg-red-100 text-red-800"
                    \/ c = "bg-yellow-100 text-yellow-800"
                    \/ c = "bg-green-100 text-green-800"
                    \/ c = "bg-gray-100 text-gray-800"))
  /\ getPriorityClasses VUndefined = Ok "bg-gray-100 text-gray-800"
  /\ getPriorityClasses VNull = Ok "bg-gray-100 text-gray-800".
Proof.
  unfold notText. split_and!; [| |done|done].
  - destruct priority; simpl; split; try done; try (by intros (? & ? & ?)).
    intros (_ & _ & H). by destruct (H s).
  - intros Hn. destruct priority; simpl;
      try (by destruct Hn); try (eexists; split; [done|]; by eauto).
    eexists; split; [done|]. repeat case_match; eauto.
Qed.

Lemma priorityMatches_VStr (priority p : string) (t : gmap string value) :
  get t "priority" = VStr p ->
  priorityMatches priority t
  = Ok (negb (String.eqb p "")
        && String.eqb (toLowerCase p) (toLowerCase priority)).
Proof.
  intros Hp. unfold priorityMatches. rewrite Hp. simpl.
  by destruct (negb (String.eqb p "")).
Qed.

Lemma priorityMatches_true (priority : string) (t : gmap string value) :
  priorityMatches priority t = Ok true ->
  exists p, get t "priority" = VStr p
            /\ toLowerCase p = toLowerCase priority.
Proof.
  destruct (get t "priority") as [| | b | n | p | |] eqn:Hp;
    try (unfold priorityMatches; rewrite Hp; simpl; try case_match; done).
  rewrite (priorityMatches_VStr _ _ _ Hp).
  intros [= [_ H%String.eqb_eq]%andb_true_iff]. by exists p.
Qed.

Lemma getPriorityClasses_VStr (p : string) :
  getPriorityClasses (VStr p)
  = Ok (if String.eqb (toLowerCase p) "high" then "bg-red-100 text-red-800"
        else if String.eqb (toLowerCase p) "medium"
             then "bg-yellow-100 text-yellow-800"
        else if String.eqb (toLowerCase p) "low"
             then "bg-green-100 text-green-800"
        else "bg-gray-100 text-gray-800").
Proof. reflexivity. Qed.

(** X5. The badge agrees with the priority filter: a task that the filter
    for high, medium or low keeps gets the red, yellow or green class, and
    a task with a non-empty text priority gets the grey class exactly when
    none of the three filters keeps it. *)
Theorem badge_agrees_with_priority_filter (t : gmap string value) :
  (priorityMatches "high" t = Ok true ->
   getPriorityClasses (get t "priority") = Ok "bg-red-100 text-red-800")
  /\ (priorityMatches "medium" t = Ok true ->
      getPriorityClasses (get t "priority")
      = Ok "bg-yellow-100 text-yellow-800")
  /\ (priorityMatches "low" t = Ok true ->
      getPriorityClasses (get t "priority")
      = Ok "bg-green-100 text-green-800")
  /\ (forall p, get t "priority" = VStr p -> p <> "" ->
      (getPriorityClasses (get t "priority")
       = Ok "bg-gray-100 text-gray-800"
       <-> priorityMatches "high" t = Ok false
           /\ priorityMatches "medium" t = Ok false
           /\ priorityMatches "low" t = Ok false)).
Proof.
  split_and!.
  1-3: intros (p & -> & Hp)%priorityMatches_true;
       rewrite getPriorityClasses_VStr, Hp; reflexivity.
  intros p Hg Hp. rewrite !(priorityMatches_VStr _ _ _ Hg), Hg.
  rewrite getPriorityClasses_VStr.
  apply String.eqb_neq in Hp. rewrite Hp. simpl negb. rewrite !andb_true_l.
  change (toLowerCase "high") with "high".
  change (toLowerCase "medium") with "medium".
  change (toLowerCase "low") with "low".
  destruct (String.eqb_spec (toLowerCase p) "high") as [_ | _];
    [split; [done | by intros [? _]]|].
  destruct (String.eqb_spec (toLowerCase p) "medium") as [_ | _];
    [split; [done | by intros (_ & ? & _)]|].
  destruct (String.eqb_spec (toLowerCase p) "low") as [_ | _];
    [split; [done | by intros (_ & _ & ?)]|].
  done.
Qed.

(** ** The stages of applyFilters *)

Lemma priorityKeeps_spec (priority : string) (t : gmap string value) :
  priorityKeeps priority t = true
  <-> textOf t "priority" <> ""
      /\ toLowerCase (textOf t "priority") = toLowerCase priority.
Proof.
  unfold priorityKeeps.
  by rewrite andb_true_iff, negb_true_iff, String.eqb_neq, String.eqb_eq.
Qed.

Lemma priorityFilter_all (filterSettings : Filters.t)
    (l : list (gmap string value)) :
  Filters.priority filterSettings = "all" ->
  priorityFilter filterSettings l = Ok l.
Proof. unfold priorityFilter. by intros ->. Qed.

Lemma priorityFilter_other (filterSettings : Filters.t)
    (l : list (gmap string value)) :
  Filters.priority filterSettings <> "all" ->
  priorityFilter filterSettings l
  = filterM (priorityMatches (Filters.priority filterSettings)) l.
Proof. unfold priorityFilter. by intros ->%String.eqb_neq. Qed.

(** X6. With priority ['all'] the priority stage returns every list as it
    is. With another criterion, on canonical tasks, it keeps exactly the
    tasks whose priority is not empty and equals the criterion up to the
    case of the letters, in their order. *)
Theorem priority_filter_exact (filterSettings : Filters.t)
    (l : list (gmap string value)) :
  Forall canonical l ->
  (forall l' : list (gmap string value),
      Filters.priority filterSettings = "all" ->
      priorityFilter filterSettings l' = Ok l')
  /\ (Filters.priority filterSettings <> "all" ->
      exists keep,
        priorityFilter filterSettings l = Ok (List.filter keep l)
        /\ forall t,
             keep t = true
             <-> textOf t "priority" <> ""
                 /\ toLowerCase (textOf t "priority")
                    = toLowerCase (Filters.priority filterSettings)).
Proof.
  intros Hl. split.
  - intros l'. apply priorityFilter_all.
  - intros Hne. exists (priorityKeeps (Filters.priority filterSettings)).
    split; [|intros t; apply priorityKeeps_spec].
    rewrite (priorityFilter_other _ _ Hne). apply filterM_pure.
    eapply Forall_impl; [exact Hl|]. apply priorityMatches_canonical.
Qed.

Lemma priority_filter_exact_witness :
  exists keep,
    priorityFilter (Filters.Make "all" "" "MEDIUM")
                   [normalizeTask exampleClock fixBugTask]
    = Ok (List.filter keep [normalizeTask exampleClock fixBugTask])
    /\ forall t,
         keep t = true
         <-> textOf t "priority" <> ""
             /\ toLowerCase (textOf t "priority") = toLowerCase "MEDIUM".
Proof.
  refine (proj2 (priority_filter_exact
                   (Filters.Make "all" "" "MEDIUM")
                   [normalizeTask exampleClock fixBugTask] _) _).
  - constructor; [|constructor].
    repeat split; eexists; reflexivity.
  - discriminate.
Defined.

Lemma filterM_Throw {A} (p : A -> outcome bool) (l : list A) :
  filterM p l = Throw TypeError
  <-> Exists (fun x => p x = Throw TypeError) l.
Proof.
  induction l as [|x l IH]; simpl.
  - split; [done | by inversion 1].
  - rewrite Exists_cons. destruct (p x) as [b|[]]; simpl.
    + rewrite <- IH. destruct (filterM p l) as [r|[]]; simpl.
      * split; [done | by intros [? | ?]].
      * split; [by right | done].
    + split; [by left | done].
Qed.

Lemma priorityMatches_Throw (priority : string) (t : gmap string value) :
  priorityMatches priority t = Throw TypeError <-> badPriority t.
Proof.
  unfold priorityMatches, badPriority.
  destruct (toBoolean (get t "priority")) eqn:Hb;
    [|split; [done | by intros [? _]]].
  destruct (get t "priority") as [| | b | n | s | |]; simpl;
    try (split; [intros _; split; [done | by intros ?] | done]).
  split; [done | intros [_ H]; by destruct (H s)].
Qed.

(** X7. With a priority criterion other than ['all'], the priority stage
    throws a [TypeError] exactly when some task of the list holds a
    priority that is truthy and not a string; [applyFilters] then throws
    as soon as such a task passes the status stage, and sets nothing. *)
Theorem priority_filter_throws (filterSettings : Filters.t)
    (l : list (gmap string value)) :
  Filters.priority filterSettings <> "all" ->
  (priorityFilter filterSettings l = Throw TypeError
   <-> Exists badPriority l)
  /\ (forall st,
        Exists badPriority (statusFilter filterSettings l) ->
        applyFilters l filterSettings st = Throw TypeError).
Proof.
  intros Hne.
  assert (forall l', priorityFilter filterSettings l' = Throw TypeError
                     <-> Exists badPriority l') as H.
  { intros l'. rewrite (priorityFilter_other _ _ Hne), filterM_Throw.
    split; intros He; (eapply Exists_impl; [exact He|]);
      intros t; apply priorityMatches_Throw. }
  split; [apply H|].
  intros st Hbad. apply H in Hbad. unfold applyFilters. by rewrite Hbad.
Qed.

Lemma priority_filter_throws_witness :
  applyFilters [normalizeTask exampleClock (numericPriorityTask 5)]
               (Filters.Make "all" "" "high") State.initial
  = Throw TypeError.
Proof.
  refine (proj2 (priority_filter_throws
                   (Filters.Make "all" "" "high")
                   [normalizeTask exampleClock (numericPriorityTask 5)] _)
                State.initial _).
  - discriminate.
  - constructor. split; [reflexivity | discriminate].
Defined.

Lemma filterM_Ok_Forall {A} (p : A -> outcome bool) (l r : list A) :
  filterM p l = Ok r -> Forall (fun x => p x = Ok true) r.
Proof.
  revert r. induction l as [|x l IH]; intros r; simpl.
  - intros [= <-]. constructor.
  - destruct (p x) as [b|e] eqn:Hx; simpl; [|done].
    destruct (filterM p l) as [r'|e]; simpl; [|done].
    intros [= <-]. destruct b; [constructor|]; auto.
Qed.

Lemma filterM_fixed {A} (p : A -> outcome bool) (r : list A) :
  Forall (fun x => p x = Ok true) r -> filterM p r = Ok r.
Proof. induction 1 as [|x r Hx _ IH]; simpl; [done|]. by rewrite Hx, IH. Qed.

Lemma List_filter_fixed {A} (p : A -> bool) (r : list A) :
  Forall (fun x => p x = true) r -> List.filter p r = r.
Proof. induction 1 as [|x r Hx _ IH]; simpl; [done|]. by rewrite Hx, IH. Qed.

Lemma List_filter_filter {A} (p q : A -> bool) (l : list A) :
  List.filter q (List.filter p l) = List.filter (fun x => p x && q x) l.
Proof.
  induction l as [|x l IH]; simpl; [done|].
  destruct (p x); simpl; [|done]. destruct (q x); by rewrite IH.
Qed.

Lemma List_filter_true {A} (p : A -> bool) (l : list A) :
  (forall x, p x = true) -> List.filter p l = l.
Proof. intros H. apply List_filter_fixed, Forall_forall. auto. Qed.

Lemma List_filter_sublist_impl {A} (p q : A -> bool) (l : list A) :
  (forall x, p x = true -> q x = true) ->
  List.filter p l `sublist_of` List.filter q l.
Proof.
  intros H. induction l as [|x l IH]; simpl; [constructor|].
  destruct (p x) eqn:Hp.
  - rewrite (H _ Hp). by constructor.
  - destruct (q x); [by constructor | done].
Qed.

(** The stages in closed form. *)
Lemma statusFilter_closed (filterSettings : Filters.t)
    (l : list (gmap string value)) :
  statusFilter filterSettings l
  = List.filter
      (fun t => String.eqb (Filters.status filterSettings) "all"
                || strict_eq_string (get t "status")
                                    (Filters.status filterSettings)) l.
Proof.
  unfold statusFilter.
  destruct (String.eqb (Filters.status filterSettings) "all"); simpl; [|done].
  by rewrite List_filter_true.
Qed.

Lemma priorityFilter_closed (filterSettings : Filters.t)
    (l : list (gmap string value)) :
  Forall canonical l ->
  priorityFilter filterSettings l
  = Ok (List.filter
          (fun t => String.eqb (Filters.priority filterSettings) "all"
                    || priorityKeeps (Filters.priority filterSettings) t) l).
Proof.
  intros Hl. unfold priorityFilter.
  destruct (String.eqb (Filters.priority filterSettings) "all"); simpl.
  - by rewrite List_filter_true.
  - apply filterM_pure. eapply Forall_impl; [exact Hl|].
    apply priorityMatches_canonical.
Qed.

Lemma searchFilter_closed (filterSettings : Filters.t)
    (l : list (gmap string value)) :
  Forall canonical l ->
  searchFilter filterSettings l
  = Ok (List.filter
          (fun t =>
             String.eqb (trim (Filters.search filterSettings)) ""
             || searchKeeps
                  (toLowerCase (trim (Filters.search filterSettings))) t) l).
Proof.
  intros Hl.
  destruct (String.eqb_spec (trim (Filters.search filterSettings)) "")
    as [Hb | Hb].
  - rewrite (searchFilter_blank _ _ Hb). by rewrite List_filter_true.
  - by rewrite (searchFilter_canonical _ _ Hb Hl).
Qed.

Lemma applyFilters_closed (l : list (gmap string value))
    (filterSettings : Filters.t) (st : State.t) :
  Forall canonical l ->
  applyFilters l filterSettings st
  = Ok (setFilteredTasks (List.filter (keptBy filterSettings) l) st).
Proof.
  intros Hl. unfold applyFilters.
  rewrite statusFilter_closed.
  rewrite priorityFilter_closed
    by (eapply Forall_sublist; [apply List_filter_sublist | exact Hl]).
  simpl.
  rewrite searchFilter_closed
    by (eapply Forall_sublist; [|exact Hl];
        etrans; apply List_filter_sublist).
  simpl. rewrite !List_filter_filter. do 2 f_equal.
  apply List.filter_ext. intros t. unfold keptBy.
  first [reflexivity | by rewrite andb_assoc | by rewrite <- andb_assoc].
Qed.

(** X8. Filtering is idempotent: when [applyFilters] returns, applying it
    with the same criteria to the filtered list it has set returns the same
    state. *)
Theorem applyFilters_idempotent (l : list (gmap string value))
    (filterSettings : Filters.t) (st st' : State.t) :
  applyFilters l filterSettings st = Ok st' ->
  applyFilters (State.filteredTasks st') filterSettings st = Ok st'.
Proof.
  intros (r1 & r2 & H1 & H2 & ->)%applyFilters_Ok. simpl.
  pose proof (priorityFilter_sublist _ _ _ H1) as S1.
  pose proof (searchFilter_sublist _ _ _ H2) as S2.
  unfold applyFilters.
  assert (statusFilter filterSettings r2 = r2) as ->.
  { rewrite statusFilter_closed. apply List_filter_fixed.
    eapply Forall_sublist; [etrans; [exact S2 | exact S1]|].
    rewrite statusFilter_closed. apply List_filter_Forall. }
  assert (priorityFilter filterSettings r2 = Ok r2) as ->.
  { revert H1. unfold priorityFilter. case_match; [|done].
    intros H1. apply filterM_fixed.
    eapply Forall_sublist; [exact S2|]. by eapply filterM_Ok_Forall. }
  simpl.
  assert (searchFilter filterSettings r2 = Ok r2) as ->; [|done].
  revert H2. unfold searchFilter. case_match; [|done].
  intros H2. apply filterM_fixed. by eapply filterM_Ok_Forall.
Qed.

Lemma applyFilters_idempotent_witness :
  applyFilters
    (State.filteredTasks
       (setFilteredTasks [normalizeTask exampleClock fixBugTask]
                         State.initial))
    (Filters.Make "incomplete" "FIX" "medium") State.initial
  = Ok (setFilteredTasks [normalizeTask exampleClock fixBugTask]
                         State.initial).
Proof.
  apply (applyFilters_idempotent
           [normalizeTask exampleClock (progressTask 81);
            normalizeTask exampleClock fixBugTask]
           (Filters.Make "incomplete" "FIX" "medium") State.initial).
  reflexivity.
Defined.

(** X9. On canonical tasks [applyFilters] keeps exactly the tasks that
    pass the status test, the priority test and the search test together,
    in the order of the input; and the status and priority stages give the
    same list in either order. *)
Theorem applyFilters_conjunction (l : list (gmap string value))
    (filterSettings : Filters.t) (st : State.t) :
  Forall canonical l ->
  applyFilters l filterSettings st
  = Ok (setFilteredTasks (List.filter (keptBy filterSettings) l) st)
  /\ exists r,
       priorityFilter filterSettings l = Ok r
       /\ priorityFilter filterSettings (statusFilter filterSettings l)
          = Ok (statusFilter filterSettings r).
Proof.
  intros Hl. split; [by apply applyFilters_closed|].
  eexists. split; [by apply priorityFilter_closed|].
  rewrite priorityFilter_closed
    by (eapply Forall_sublist; [apply statusFilter_sublist | exact Hl]).
  rewrite !statusFilter_closed, !List_filter_filter. f_equal.
  apply List.filter_ext. intros t. apply andb_comm.
Qed.

Lemma applyFilters_conjunction_witness :
  applyFilters [normalizeTask exampleClock fixBugTask]
               (Filters.Make "complete" "fix" "medium") State.initial
  = Ok (setFilteredTasks
          (List.filter (keptBy (Filters.Make "complete" "fix" "medium"))
                       [normalizeTask exampleClock fixBugTask])
          State.initial).
Proof.
  refine (proj1 (applyFilters_conjunction
                   [normalizeTask exampleClock fixBugTask]
                   (Filters.Make "complete" "fix" "medium")
                   State.initial _)).
  constructor; [|constructor].
  repeat split; eexists; reflexivity.
Defined.

Lemma append_assoc (a b c : string) : (a +:+ b) +:+ c = a +:+ (b +:+ c).
Proof.
  induction a as [|x a IH]; [done|]. by rewrite !append_String, IH.
Qed.

Lemma includes_trans (hay mid needle : string) :
  includes hay mid = true -> includes mid needle = true ->
  includes hay needle = true.
Proof.
  rewrite !includes_spec.
  intros (a & b & ->) (c & d & ->).
  exists (a +:+ c), (d +:+ b).
  by rewrite !append_assoc.
Qed.

Lemma searchKeeps_mono (n1 n2 : string) (t : gmap string value) :
  includes n2 n1 = true ->
  searchKeeps n2 t = true -> searchKeeps n1 t = true.
Proof.
  intros Hn. unfold searchKeeps. rewrite !orb_true_iff.
  intros [[H | H] | H]; eauto using includes_trans.
Qed.

(** X10. Typing more narrows the result: on canonical tasks, when the
    search text [s1], lower-cased and trimmed as the filter compares it,
    is a piece of the search text [s2], lower-cased and trimmed, every
    task shown for [s2] is shown for [s1], in the same order, the other
    criteria being the same. *)
Theorem longer_search_narrows (l : list (gmap string value))
    (status priority s1 s2 : string) (st : State.t) :
  Forall canonical l ->
  substringOf (trim (toLowerCase s1)) (trim (toLowerCase s2)) ->
  exists a b,
    applyFilters l (Filters.Make status s1 priority) st = Ok a
    /\ applyFilters l (Filters.Make status s2 priority) st = Ok b
    /\ State.filteredTasks b `sublist_of` State.filteredTasks a.
Proof.
  intros Hl Hc%includes_spec. rewrite !trim_toLowerCase in Hc.
  eexists _, _. split_and!; [by apply applyFilters_closed..|].
  simpl. apply List_filter_sublist_impl. intros t.
  unfold keptBy. simpl. rewrite !andb_true_iff.
  intros [Hsp Hs]. split; [done|].
  destruct (String.eqb_spec (trim s1) "") as [|Hne1]; [done|].
  destruct (String.eqb_spec (trim s2) "") as [E2|Hne2]; simpl in *.
  - exfalso. rewrite E2 in Hc. change (toLowerCase "") with "" in Hc.
    rewrite includes_empty_hay in Hc; [done|]. by rewrite toLowerCase_empty.
  - by eapply searchKeeps_mono.
Qed.

Lemma longer_search_narrows_witness :
  exists a b,
    applyFilters [normalizeTask exampleClock fixBugTask]
                 (Filters.Make "all" "fi" "all") State.initial = Ok a
    /\ applyFilters [normalizeTask exampleClock fixBugTask]
                    (Filters.Make "all" "Fix b" "all") State.initial = Ok b
    /\ State.filteredTasks b `sublist_of` State.filteredTasks a.
Proof.
  apply (longer_search_narrows [normalizeTask exampleClock fixBugTask]
           "all" "all" "fi" "Fix b" State.initial).
  - constructor; [|constructor].
    repeat split; eexists; reflexivity.
  - exists "", "x b". reflexivity.
Defined.

(** ** The handlers *)

(** The list [applyFilters] computes does not depend on the state. *)
Lemma applyFilters_state (l : list (gmap string value))
    (filterSettings : Filters.t) (s1 s2 a : State.t) :
  applyFilters l filterSettings s1 = Ok a ->
  applyFilters l filterSettings s2
  = Ok (setFilteredTasks (State.filteredTasks a) s2).
Proof.
  intros (r1 & r2 & H1 & H2 & ->)%applyFilters_Ok.
  unfold applyFilters. by rewrite H1; simpl; rewrite H2.
Qed.

Lemma applyFilters_default (l : list (gmap string value)) (st : State.t) :
  applyFilters l (Filters.Make "all" "" "all") st
  = Ok (setFilteredTasks l st).
Proof. reflexivity. Qed.

Lemma withFilter_comm (f : Filters.t) (k1 k2 v1 v2 : string) :
  k1 <> k2 ->
  withFilter (withFilter f k1 v1) k2 v2
  = withFilter (withFilter f k2 v2) k1 v1.
Proof.
  intros Hne. unfold withFilter.
  destruct (String.eqb_spec k1 "status"), (String.eqb_spec k1 "search"),
    (String.eqb_spec k1 "priority"), (String.eqb_spec k2 "status"),
    (String.eqb_spec k2 "search"), (String.eqb_spec k2 "priority");
    simpl; congruence.
Qed.

Lemma withFilter_twice (f : Filters.t) (k v1 v2 : string) :
  withFilter (withFilter f k v1) k v2 = withFilter f k v2.
Proof.
  unfold withFilter.
  destruct (String.eqb_spec k "status"), (String.eqb_spec k "search"),
    (String.eqb_spec k "priority"); simpl; congruence.
Qed.

Lemma handleFilterChange_closed (k v : string) (st : State.t) :
  Forall canonical (State.tasks st) ->
  handleFilterChange k v st
  = Ok (setFilteredTasks
          (List.filter (keptBy (withFilter (State.filters st) k v))
                       (State.tasks st))
          (setFilters (withFilter (State.filters st) k v) st)).
Proof. intros Hl. unfold handleFilterChange. by apply applyFilters_closed. Qed.

(** X11. On canonical tasks the order in which two different criteria are
    set does not matter, and setting the same criterion twice leaves the
    later value: both ways end in the same state. *)
Theorem handleFilterChange_order (k1 k2 v1 v2 : string) (st : State.t) :
  Forall canonical (State.tasks st) ->
  (k1 <> k2 ->
   exists s1 s2 s,
     handleFilterChange k1 v1 st = Ok s1
     /\ handleFilterChange k2 v2 s1 = Ok s
     /\ handleFilterChange k2 v2 st = Ok s2
     /\ handleFilterChange k1 v1 s2 = Ok s)
  /\ (exists s1 s,
        handleFilterChange k1 v1 st = Ok s1
        /\ handleFilterChange k1 v2 s1 = Ok s
        /\ handleFilterChange k1 v2 st = Ok s).
Proof.
  intros Hl.
  pose proof (handleFilterChange_closed k1 v1 st Hl) as E1.
  pose proof (handleFilterChange_closed k2 v2 st Hl) as E2.
  split.
  - intros Hne. eexists _, _, _.
    split; [exact E1|]. split; [|split; [exact E2|]].
    + rewrite handleFilterChange_closed by done. reflexivity.
    + rewrite handleFilterChange_closed by done. simpl.
      by rewrite (withFilter_comm _ k2 k1 v2 v1).
  - eexists _, _. split; [exact E1|]. split.
    + rewrite handleFilterChange_closed by done. reflexivity.
    + rewrite handleFilterChange_closed by done. simpl.
      by rewrite withFilter_twice.
Qed.

Lemma handleFilterChange_order_witness :
  exists s1 s2 s,
    handleFilterChange "status" "complete" exampleState = Ok s1
    /\ handleFilterChange "search" "fix" s1 = Ok s
    /\ handleFilterChange "search" "fix" exampleState = Ok s2
    /\ handleFilterChange "status" "complete" s2 = Ok s.
Proof.
  refine (proj1 (handleFilterChange_order "status" "search"
                   "complete" "fix" exampleState _) _).
  - repeat (constructor; [repeat split; eexists; reflexivity|]).
    constructor.
  - discriminate.
Defined.

(** X12. [resetFilters] returns on every state, also one whose tasks are
    malformed: it restores the default criteria, shows all the tasks of
    the state and leaves tasks and counts as they are; and it takes back
    any change of a criterion. *)
Theorem resetFilters_restores (st : State.t) :
  exists st',
    resetFilters st = Ok st'
    /\ State.filters st' = Filters.Make "all" "" "all"
    /\ State.filteredTasks st' = State.tasks st
    /\ State.tasks st' = State.tasks st
    /\ State.counts st' = State.counts st
    /\ forall k v s, handleFilterChange k v st = Ok s ->
                     resetFilters s = Ok st'.
Proof.
  eexists. split_and!; try reflexivity.
  intros k v s (r1 & r2 & _ & _ & ->)%applyFilters_Ok. reflexivity.
Qed.

(** X13. After a change of a criterion that returns, and after a reset,
    the filtered list of the state is what the criteria of the state give
    on its tasks; it is a part of the tasks in their order, so the number
    shown never exceeds the number of tasks. *)
Theorem handlers_leave_state_coherent (st st' : State.t) :
  (exists k v, handleFilterChange k v st = Ok st') \/ resetFilters st = Ok st' ->
  coherent st'
  /\ State.filteredTasks st' `sublist_of` State.tasks st'
  /\ length (State.filteredTasks st') <= length (State.tasks st').
Proof.
  assert (forall f,
            applyFilters (State.tasks st) f (setFilters f st) = Ok st' ->
            coherent st'
            /\ State.filteredTasks st' `sublist_of` State.tasks st') as H.
  { intros f Hf.
    pose proof Hf as (r1 & r2 & H1 & H2 & ->)%applyFilters_Ok.
    split.
    - unfold coherent. simpl.
      by rewrite (applyFilters_state _ _ _
                    (setFilteredTasks r2 (setFilters f st)) _ Hf).
    - simpl. etrans; [by eapply searchFilter_sublist|].
      etrans; [by eapply priorityFilter_sublist|].
      apply statusFilter_sublist. }
  intros [(k & v & Hk) | Hr].
  - destruct (H _ Hk) as [? ?]. split_and!; [done..|by apply sublist_length].
  - destruct (H _ Hr) as [? ?]. split_and!; [done..|by apply sublist_length].
Qed.

Lemma handlers_leave_state_coherent_witness :
  coherent (setFilteredTasks (State.tasks exampleState)
              (setFilters (Filters.Make "all" "" "all") exampleState)).
Proof.
  refine (proj1 (handlers_leave_state_coherent exampleState _ _)).
  right. reflexivity.
Defined.

(** ** Loading and cross-tab updates *)

Lemma mapNormalize_normalized (clocks : nat -> clock) (i : nat)
    (items : list value) (l : list (gmap string value)) :
  mapNormalize clocks i items = Ok l -> Forall normalized l.
Proof.
  revert i l. induction items as [|v items IH]; intros i l; simpl.
  - intros [= <-]. constructor.
  - destruct (asObject v) as [task|e]; simpl; [|done].
    destruct (mapNormalize clocks (S i) items) as [r|e] eqn:Hr; simpl; [|done].
    intros [= <-]. constructor; [apply normalized_normalizeTask | by eapply IH].
Qed.

Lemma normalizeAll_normalized (clocks : nat -> clock) (parsed : value)
    (l : list (gmap string value)) :
  normalizeAll clocks parsed = Ok l -> Forall normalized l.
Proof. destruct parsed; try done. apply mapNormalize_normalized. Qed.

(** With the criteria of the first render every task is shown. *)
Lemma showTasks_atMount (l : list (gmap string value)) (st : State.t) :
  showTasks l filtersAtMount st
  = (updateCounts l (setFilteredTasks l (setTasks l st)), true).
Proof. reflexivity. Qed.

Lemma counts_normalized (l : list (gmap string value)) (st : State.t) :
  Forall normalized l ->
  Counts.all (State.counts (updateCounts l st)) = length l
  /\ Counts.complete (State.counts (updateCounts l st))
     + Counts.incomplete (State.counts (updateCounts l st))
     = length l.
Proof.
  intros Hn. split; [done|]. simpl. apply status_partition.
  eapply Forall_impl; [exact Hn|]. apply normalized_status_cases.
Qed.

Lemma mapNormalize_Ok (clocks : nat -> clock) (i : nat)
    (items : list value) :
  Forall (fun v => ~ nullish v) items ->
  exists l, mapNormalize clocks i items = Ok l
            /\ length l = length items.
Proof.
  intros H. revert i. induction H as [|v items Hv _ IH]; intros i; simpl.
  - by exists [].
  - destruct (IH (S i)) as (r & -> & Hr).
    destruct v; simpl; try (eexists; split; [done | simpl; by rewrite Hr]).
    + destruct Hv. by right.
    + destruct Hv. by left.
Qed.

Lemma mapNormalize_Throw (clocks : nat -> clock) (i : nat)
    (items : list value) :
  Exists nullish items -> mapNormalize clocks i items = Throw TypeError.
Proof.
  intros H. revert i.
  induction H as [v items [-> | ->]|v items _ IH]; intros i; simpl;
    [done | done |].
  rewrite IH. destruct (asObject v) as [?|[]]; done.
Qed.

(** X14. A storage event leaves the state as it is when its key is not
    [tasks], when [JSON.parse] rejects its text, when the parsed value is
    not an array, and when the array holds a [null]. On every other array,
    also one of numbers or texts, it replaces tasks, filtered list and
    counts together, with one normalised task for each element: the counts
    add up, and the filtered list is the whole new list whatever criteria
    the state holds, because the handler filters with the criteria of the
    first render; the criteria themselves and the loading and error flags
    are not touched. *)
Theorem handleStorageChange_consistent (b : browser) (clocks : nat -> clock)
    (e : StorageEvent.t) (st : State.t) :
  (StorageEvent.key e <> Some "tasks" ->
   handleStorageChange b clocks filtersAtMount e st = st)
  /\ (StorageEvent.key e = Some "tasks" ->
      (jsonParse b (eventText e) = None ->
       handleStorageChange b clocks filtersAtMount e st = st)
      /\ (forall parsed,
            jsonParse b (eventText e) = Some parsed ->
            (forall items, parsed <> VArr items) ->
            handleStorageChange b clocks filtersAtMount e st = st)
      /\ (forall items,
            jsonParse b (eventText e) = Some (VArr items) ->
            Exists nullish items ->
            handleStorageChange b clocks filtersAtMount e st = st)
      /\ (forall items,
            jsonParse b (eventText e) = Some (VArr items) ->
            Forall (fun v => ~ nullish v) items ->
            exists l,
              mapNormalize clocks 0 items = Ok l
              /\ length l = length items
              /\ Forall normalized l
              /\ handleStorageChange b clocks filtersAtMount e st
                 = updateCounts l (setFilteredTasks l (setTasks l st))
              /\ State.tasks
                   (handleStorageChange b clocks filtersAtMount e st) = l
              /\ State.filteredTasks
                   (handleStorageChange b clocks filtersAtMount e st) = l
              /\ Counts.all
                   (State.counts
                      (handleStorageChange b clocks filtersAtMount e st))
                 = length l
              /\ Counts.complete
                   (State.counts
                      (handleStorageChange b clocks filtersAtMount e st))
                 + Counts.incomplete
                     (State.counts
                        (handleStorageChange b clocks filtersAtMount e st))
                 = length l
              /\ State.filters
                   (handleStorageChange b clocks filtersAtMount e st)
                 = State.filters st
              /\ State.loading
                   (handleStorageChange b clocks filtersAtMount e st)
                 = State.loading st
              /\ State.error
                   (handleStorageChange b clocks filtersAtMount e st)
                 = State.error st)).
Proof.
  unfold handleStorageChange. fold (eventText e). split.
  - intros Hk. destruct (StorageEvent.key e) as [k|]; [|done].
    destruct (String.eqb_spec k "tasks") as [-> | Hne]; [done|].
    repeat case_match; try done; by subst.
  - intros ->. split_and!.
    + by intros ->.
    + intros parsed -> Hn.
      destruct parsed; try done. by destruct (Hn items).
    + intros items -> Hx. unfold normalizeAll.
      by rewrite (mapNormalize_Throw _ _ _ Hx).
    + intros items -> Hf.
      destruct (mapNormalize_Ok clocks 0 items Hf) as (l & Hl & Hlen).
      exists l. unfold normalizeAll. rewrite Hl, showTasks_atMount.
      pose proof (mapNormalize_normalized _ _ _ _ Hl) as Hn.
      simpl. split_and!; try done.
      apply status_partition.
      eapply Forall_impl; [exact Hn|]. apply normalized_status_cases.
Qed.

(** X15. When the key [tasks] is removed in another tab, or set to the
    empty text, the handler reads the text of the empty array in its
    place: the list, the filtered list and the counts become empty, and no
    sample task is put back. *)
Theorem handleStorageChange_removed (b : browser) (clocks : nat -> clock)
    (e : StorageEvent.t) (st : State.t) :
  jsonParse b "[]" = Some (VArr []) ->
  StorageEvent.key e = Some "tasks" ->
  StorageEvent.newValue e = None \/ StorageEvent.newValue e = Some "" ->
  handleStorageChange b clocks filtersAtMount e st
  = updateCounts [] (setFilteredTasks [] (setTasks [] st))
  /\ State.counts (handleStorageChange b clocks filtersAtMount e st)
     = Counts.Make 0 0 0.
Proof.
  intros Hp Hk Hv. unfold handleStorageChange. rewrite Hk.
  destruct Hv as [-> | ->]; simpl; by rewrite Hp.
Qed.

Lemma handleStorageChange_removed_witness :
  State.counts
    (handleStorageChange emptyArrayBrowser (fun _ => exampleClock)
       filtersAtMount (StorageEvent.Make (Some "tasks") None) exampleState)
  = Counts.Make 0 0 0.
Proof.
  refine (proj2 (handleStorageChange_removed emptyArrayBrowser
                   (fun _ => exampleClock)
                   (StorageEvent.Make (Some "tasks") None) exampleState
                   _ _ _)).
  - reflexivity.
  - reflexivity.
  - left. reflexivity.
Defined.

(** The failure branches of [loadTasks]. *)
Ltac load_failed := simpl; split_and!; [done | done | by left | done].

(** X16. [loadTasks] always ends with the loading flag down and the
    criteria untouched. It ends either with the error message set and
    nothing written to the storage, or with the error cleared, every task
    normalised, all of them shown and the counts adding up. It writes to
    the storage only when nothing, or the empty text, was stored, and then
    the text of the sample tasks: stored tasks are never overwritten. *)
Theorem loadTasks_outcome (b : browser) (clocks : nat -> clock)
    (st : State.t) :
  State.loading (loadTasks b clocks filtersAtMount st).1 = false
  /\ State.filters (loadTasks b clocks filtersAtMount st).1
     = State.filters st
  /\ ((State.error (loadTasks b clocks filtersAtMount st).1
       = Some loadFailed
       /\ (loadTasks b clocks filtersAtMount st).2 = None)
      \/ (State.error (loadTasks b clocks filtersAtMount st).1 = None
          /\ Forall normalized
               (State.tasks (loadTasks b clocks filtersAtMount st).1)
          /\ State.filteredTasks (loadTasks b clocks filtersAtMount st).1
             = State.tasks (loadTasks b clocks filtersAtMount st).1
          /\ Counts.all
               (State.counts (loadTasks b clocks filtersAtMount st).1)
             = length
                 (State.tasks (loadTasks b clocks filtersAtMount st).1)
          /\ Counts.complete
               (State.counts (loadTasks b clocks filtersAtMount st).1)
             + Counts.incomplete
                 (State.counts (loadTasks b clocks filtersAtMount st).1)
             = length
                 (State.tasks (loadTasks b clocks filtersAtMount st).1)))
  /\ (forall text,
        (loadTasks b clocks filtersAtMount st).2 = Some text ->
        text = jsonStringify b (sampleTasks b)
        /\ (getItemTasks b = Some None \/ getItemTasks b = Some (Some ""))).
Proof.
  assert (forall l, Forall normalized l ->
            length (List.filter
                      (fun t => strict_eq_string (get t "status") "complete")
                      l)
            + length (List.filter
                        (fun t =>
                           strict_eq_string (get t "status") "incomplete")
                        l)
            = length l) as Hcount.
  { intros l Hn. apply status_partition.
    eapply Forall_impl; [exact Hn|]. apply normalized_status_cases. }
  unfold loadTasks.
  remember (normalizeAll clocks (sampleTasks b)) as sample eqn:Hs.
  symmetry in Hs.
  destruct (getItemTasks b) as [[text|]|]; cbn [from_option id].
  - destruct (String.eqb_spec text "") as [-> | Hne]; cbn [negb].
    + destruct sample as [l|]; [|load_failed].
      rewrite showTasks_atMount. cbn beta iota.
      pose proof (normalizeAll_normalized _ _ _ Hs) as Hn.
      destruct (setItemSucceeds b); [|load_failed].
      simpl. split_and!; [done..|right; split_and!; auto|].
      intros ? [= <-]. auto.
    + destruct (jsonParse b text) as [parsed|]; [|load_failed].
      destruct (normalizeAll clocks parsed) as [l|] eqn:Hl;
        [|load_failed].
      rewrite showTasks_atMount. cbn beta iota.
      pose proof (normalizeAll_normalized _ _ _ Hl) as Hn.
      simpl. split_and!; [done..|right; split_and!; auto|done].
  - destruct sample as [l|]; [|load_failed].
    rewrite showTasks_atMount. cbn beta iota.
    pose proof (normalizeAll_normalized _ _ _ Hs) as Hn.
    destruct (setItemSucceeds b); [|load_failed].
    simpl. split_and!; [done..|right; split_and!; auto|].
    intros ? [= <-]. auto.
  - load_failed.
Qed.

(** ** More on normalizeTask *)

Lemma normalizeTask_inserts (clk : clock) (task : gmap string value) :
  normalizeTask clk task
  = <["id" := get task "id" ||' get task "_id"
              ||' VStr (dateNowString clk)]>
    (<["title" := get task "title" ||' VStr "Untitled Task"]>
    (<["description" := get task "description" ||' VStr ""]>
    (<["status" := VStr (normalizedStatus task)]>
    (<["priority" := get task "priority" ||' VStr "medium"]>
    (<["dueDate" := get task "dueDate" ||' get task "deadline" ||' VNull]>
    (<["createdAt" := get task "createdAt" ||' VStr (isoNowString clk)]>
    (<["progress" :=
         get task "progress" ||'
         VNum (Fin (if String.eqb (normalizedStatus task) "complete"
                    then 100 else 0))]>
    (<["assignedTo" := get task "assignedTo" ||' VStr "Unassigned"]>
       ∅)))))))).
Proof. reflexivity. Qed.

Lemma or_else_defined (a b : value) :
  b <> VUndefined -> a ||' b <> VUndefined.
Proof.
  intros Hb. unfold or_else. destruct (toBoolean a) eqn:Ha; [|done].
  by intros ->.
Qed.

Lemma or_else_default_truthy (a b : value) :
  toBoolean b = true -> toBoolean (a ||' b) = true.
Proof. intros Hb. unfold or_else. by destruct (toBoolean a) eqn:Ha. Qed.

(** X17. A normalised task has exactly the nine fields of the object
    literal as its own properties: what the raw record holds under other
    names is not carried over, and reading [_id] or [deadline] from the
    result gives [undefined]. None of the nine fields is [undefined], and
    title, status, priority and assignee are truthy. *)
Theorem normalizeTask_shape (clk : clock) (task : gmap string value) :
  dom (normalizeTask clk task) = normalizedKeys
  /\ (forall k, k ∉ normalizedKeys -> normalizeTask clk task !! k = None)
  /\ get (normalizeTask clk task) "_id" = VUndefined
  /\ get (normalizeTask clk task) "deadline" = VUndefined
  /\ (forall k, k ∈ normalizedKeys ->
                get (normalizeTask clk task) k <> VUndefined)
  /\ toBoolean (get (normalizeTask clk task) "title") = true
  /\ toBoolean (get (normalizeTask clk task) "status") = true
  /\ toBoolean (get (normalizeTask clk task) "priority") = true
  /\ toBoolean (get (normalizeTask clk task) "assignedTo") = true.
Proof.
  assert (dom (normalizeTask clk task) = normalizedKeys) as Hdom.
  { rewrite normalizeTask_inserts. rewrite !dom_insert_L, dom_empty_L.
    unfold normalizedKeys. set_solver. }
  split_and!.
  - exact Hdom.
  - intros k Hk. apply not_elem_of_dom. by rewrite Hdom.
  - reflexivity.
  - reflexivity.
  - intros k Hk. unfold normalizedKeys in Hk.
    rewrite !elem_of_union, !elem_of_singleton in Hk.
    destruct Hk as [[[[[[[[-> | ->] | ->] | ->] | ->] | ->] | ->] | ->] | ->].
    + rewrite normalized_id. by apply or_else_defined.
    + rewrite normalized_title. by apply or_else_defined.
    + rewrite normalized_description. by apply or_else_defined.
    + by rewrite normalized_status.
    + rewrite normalized_priority. by apply or_else_defined.
    + rewrite normalized_dueDate. by apply or_else_defined.
    + rewrite normalized_createdAt. by apply or_else_defined.
    + rewrite normalized_progress. by apply or_else_defined.
    + rewrite normalized_assignedTo. by apply or_else_defined.
  - rewrite normalized_title. by apply or_else_default_truthy.
  - rewrite normalized_status.
    by destruct (normalizedStatus_cases task) as [-> | ->].
  - rewrite normalized_priority. by apply or_else_default_truthy.
  - rewrite normalized_assignedTo. by apply or_else_default_truthy.
Qed.

(** X18. The legacy names are read as fall-backs: [_id] stands in for a
    missing or falsy [id], and [deadline] for a missing or falsy
    [dueDate]; a truthy [id] or [dueDate] wins over them. With neither,
    the id is the text of the clock and the due date is [null]. *)
Theorem legacy_fields_fall_back (clk : clock) (task : gmap string value) :
  (toBoolean (get task "id") = true ->
   get (normalizeTask clk task) "id" = get task "id")
  /\ (toBoolean (get task "id") = false ->
      toBoolean (get task "_id") = true ->
      get (normalizeTask clk task) "id" = get task "_id")
  /\ (toBoolean (get task "id") = false ->
      toBoolean (get task "_id") = false ->
      get (normalizeTask clk task) "id" = VStr (dateNowString clk))
  /\ (toBoolean (get task "dueDate") = true ->
      get (normalizeTask clk task) "dueDate" = get task "dueDate")
  /\ (toBoolean (get task "dueDate") = false ->
      toBoolean (get task "deadline") = true ->
      get (normalizeTask clk task) "dueDate" = get task "deadline")
  /\ (toBoolean (get task "dueDate") = false ->
      toBoolean (get task "deadline") = false ->
      get (normalizeTask clk task) "dueDate" = VNull).
Proof.
  rewrite normalized_id, normalized_dueDate. unfold or_else.
  split_and!; intros H1; try intros H2; by rewrite ?H1, ?H2.
Qed.

(** X19. Status and synthesised progress. A record whose status field is
    neither of the two literals and whose progress is not a number is
    incomplete. When the supplied progress is missing or falsy, the
    progress of the result is 100 for a complete task and 0 for an
    incomplete one, so the two agree. *)
Theorem default_status_and_progress (clk : clock)
    (task : gmap string value) :
  (get task "status" <> VStr "complete" ->
   get task "status" <> VStr "incomplete" ->
   (forall n, get task "progress" <> VNum n) ->
   get (normalizeTask clk task) "status" = VStr "incomplete")
  /\ (toBoolean (get task "progress") = false ->
      (get (normalizeTask clk task) "status" = VStr "complete"
       /\ get (normalizeTask clk task) "progress" = VNum (Fin 100))
      \/ (get (normalizeTask clk task) "status" = VStr "incomplete"
          /\ get (normalizeTask clk task) "progress" = VNum (Fin 0))).
Proof.
  rewrite normalized_status, normalized_progress. split.
  - intros Hc Hi Hn. unfold normalizedStatus.
    destruct (strict_eq_string (get task "status") "complete") eqn:E1;
      [by apply strict_eq_string_spec in E1|].
    destruct (strict_eq_string (get task "status") "incomplete") eqn:E2;
      [by apply strict_eq_string_spec in E2|].
    destruct (get task "progress") as [| | | n | | |]; try done.
    by destruct (Hn n).
  - intros Hp. rewrite (or_else_falsy _ _ Hp).
    destruct (normalizedStatus_cases task) as [-> | ->]; [by left | by right].
Qed.

Lemma normalizeTask_any_clock (clk clk' : clock) (task : gmap string value) :
  toBoolean (get task "id" ||' get task "_id") = true ->
  toBoolean (get task "createdAt") = true ->
  normalizeTask clk task = normalizeTask clk' task.
Proof.
  intros Hid Hc. rewrite !normalizeTask_inserts.
  by rewrite !(or_else_truthy _ _ Hid), !(or_else_truthy _ _ Hc).
Qed.

(** X20. [normalizeTask] depends on the clock through the two defaults
    only: every field but [id] and [createdAt] is the same under any two
    clocks, and a record that has an [id] or [_id] and a [createdAt]
    normalises to the same task under every clock. *)
Theorem normalizeTask_clock_dependence (clk clk' : clock)
    (task : gmap string value) :
  (forall k, k <> "id" -> k <> "createdAt" ->
             get (normalizeTask clk task) k = get (normalizeTask clk' task) k)
  /\ (toBoolean (get task "id" ||' get task "_id") = true ->
      toBoolean (get task "createdAt") = true ->
      normalizeTask clk task = normalizeTask clk' task).
Proof.
  split; [|apply normalizeTask_any_clock].
  intros k Hid Hc. unfold get. rewrite !normalizeTask_inserts.
  rewrite !lookup_insert. repeat case_decide; by subst.
Qed.

(** The legacy record of the examples: the id and the due date come from
    the legacy names, and the field [owner] is dropped. *)
Lemma legacyTask_example :
  get (normalizeTask exampleClock (legacyTask "42" "2024-05-01" "Bob")) "id"
  = VStr "42"
  /\ get (normalizeTask exampleClock (legacyTask "42" "2024-05-01" "Bob"))
         "dueDate" = VStr "2024-05-01"
  /\ get (normalizeTask exampleClock (legacyTask "42" "2024-05-01" "Bob"))
         "owner" = VUndefined
  /\ get (normalizeTask exampleClock (legacyTask "42" "2024-05-01" "Bob"))
         "assignedTo" = VStr "Unassigned".
Proof. split_and!; reflexivity. Qed.

(** ** More on updateCounts *)

Lemma status_counts (l : list (gmap string value)) :
  length (List.filter
            (fun t => strict_eq_string (get t "status") "complete") l)
  + length (List.filter
              (fun t => strict_eq_string (get t "status") "incomplete") l)
  <= length l
  /\ (length (List.filter
                (fun t => strict_eq_string (get t "status") "complete") l)
      + length (List.filter
                  (fun t => strict_eq_string (get t "status") "incomplete")
                  l)
      = length l
      <-> Forall (fun t => get t "status" = VStr "complete"
                           \/ get t "status" = VStr "incomplete") l).
Proof.
  induction l as [|t l [IHle IHeq]]; simpl.
  - split; [lia|]. split; [constructor | done].
  - rewrite Forall_cons, <- IHeq.
    destruct (strict_eq_string (get t "status") "complete") eqn:Ec.
    + apply strict_eq_string_spec in Ec. rewrite Ec. simpl.
      split; [lia|]. split; [intros; split; [by left | lia] | intros [_ ?]; lia].
    + destruct (strict_eq_string (get t "status") "incomplete") eqn:Ei; simpl.
      * apply strict_eq_string_spec in Ei.
        split; [lia|].
        split; [intros; split; [by right | lia] | intros [_ ?]; lia].
      * split; [lia|]. split; [lia|].
        intros [[H | H] _]; apply strict_eq_string_spec in H; congruence.
Qed.

(** X21. On every list, normalised or not, [updateCounts] sets [all] to
    the length, and [complete + incomplete] never exceeds [all]; the two
    are equal exactly when every status is one of the two literals. It
    changes the counts and nothing else. *)
Theorem updateCounts_any_list (taskList : list (gmap string value))
    (st : State.t) :
  Counts.all (State.counts (updateCounts taskList st)) = length taskList
  /\ Counts.complete (State.counts (updateCounts taskList st))
     + Counts.incomplete (State.counts (updateCounts taskList st))
     <= length taskList
  /\ (Counts.complete (State.counts (updateCounts taskList st))
      + Counts.incomplete (State.counts (updateCounts taskList st))
      = length taskList
      <-> Forall (fun t => get t "status" = VStr "complete"
                           \/ get t "status" = VStr "incomplete") taskList)
  /\ State.tasks (updateCounts taskList st) = State.tasks st
  /\ State.filteredTasks (updateCounts taskList st) = State.filteredTasks st
  /\ State.filters (updateCounts taskList st) = State.filters st.
Proof.
  destruct (status_counts taskList) as [Hle Heq]. by split_and!.
Qed.

(** X22. The numbers of the status menu are the numbers of tasks its
    options show: on every list, [complete] and [incomplete] of
    [updateCounts] are the lengths of the lists that [applyFilters] sets
    for status ['complete'] and ['incomplete'] with the other criteria at
    their defaults, and [all] is the length for the default criteria. *)
Theorem counts_match_status_filter (taskList : list (gmap string value))
    (st st0 : State.t) :
  exists sc si sa,
    applyFilters taskList (Filters.Make "complete" "" "all") st0 = Ok sc
    /\ applyFilters taskList (Filters.Make "incomplete" "" "all") st0 = Ok si
    /\ applyFilters taskList (Filters.Make "all" "" "all") st0 = Ok sa
    /\ Counts.complete (State.counts (updateCounts taskList st))
       = length (State.filteredTasks sc)
    /\ Counts.incomplete (State.counts (updateCounts taskList st))
       = length (State.filteredTasks si)
    /\ Counts.all (State.counts (updateCounts taskList st))
       = length (State.filteredTasks sa).
Proof. eexists _, _, _. split_and!; reflexivity. Qed.

(** ** The first visit *)

(** The sample tasks carry an id, and a creation date when the host prints
    dates as non-empty texts: their normal form is the same under every
    clock. *)
Lemma sample_normalizes (b : browser) (clocks clocks' : nat -> clock) :
  (forall t, toISOString b t <> "") ->
  exists t1 t2 t3,
    normalizeAll clocks (sampleTasks b) = Ok [t1; t2; t3]
    /\ normalizeAll clocks' (sampleTasks b) = Ok [t1; t2; t3]
    /\ get t1 "status" = VStr "incomplete"
    /\ get t2 "status" = VStr "complete"
    /\ get t3 "status" = VStr "incomplete".
Proof.
  intros Hiso.
  assert (forall t, toBoolean (VStr (toISOString b t)) = true) as Htruthy.
  { intros t. simpl. by apply negb_true_iff, String.eqb_neq. }
  eexists _, _, _. split; [reflexivity|]. split; [|split_and!; reflexivity].
  cbn [normalizeAll sampleTasks mapNormalize asObject mbind outcome_bind].
  do 2 f_equal; [|f_equal; [|f_equal]];
    apply normalizeTask_any_clock; first [reflexivity | apply Htruthy].
Qed.

(** X23. On a first visit, with nothing stored and a storage that accepts
    the write, [loadTasks] shows the three sample tasks with counts 3, 1
    and 2, clears the error and writes the text of the sample tasks. When
    the next visit finds that text stored and [JSON.parse] reads the
    sample tasks back from it, [loadTasks] ends in the same state and
    writes nothing. *)
Theorem first_visit_seeds_and_reloads (b b' : browser)
    (clocks clocks' : nat -> clock) (st : State.t) :
  getItemTasks b = Some None ->
  setItemSucceeds b = true ->
  (forall t, toISOString b t <> "") ->
  jsonStringify b (sampleTasks b) <> "" ->
  getItemTasks b' = Some (Some (jsonStringify b (sampleTasks b))) ->
  jsonParse b' (jsonStringify b (sampleTasks b)) = Some (sampleTasks b) ->
  (loadTasks b clocks filtersAtMount st).2
  = Some (jsonStringify b (sampleTasks b))
  /\ length (State.tasks (loadTasks b clocks filtersAtMount st).1) = 3
  /\ State.counts (loadTasks b clocks filtersAtMount st).1
     = Counts.Make 3 1 2
  /\ State.error (loadTasks b clocks filtersAtMount st).1 = None
  /\ (loadTasks b' clocks' filtersAtMount st).1
     = (loadTasks b clocks filtersAtMount st).1
  /\ (loadTasks b' clocks' filtersAtMount st).2 = None.
Proof.
  intros Hg Hset Hiso Hne Hg' Hp.
  destruct (sample_normalizes b clocks clocks' Hiso)
    as (t1 & t2 & t3 & H & H' & S1 & S2 & S3).
  apply String.eqb_neq in Hne.
  unfold loadTasks. rewrite Hg, Hg'. cbn [from_option id].
  rewrite Hne. cbn [negb String.eqb]. rewrite Hp, H, H', Hset.
  rewrite !showTasks_atMount. cbn beta iota.
  split_and!; try reflexivity.
  unfold updateCounts. simpl. by rewrite S1, S2, S3.
Qed.

Lemma first_visit_seeds_and_reloads_witness :
  State.counts
    (loadTasks firstVisitBrowser (fun _ => exampleClock) filtersAtMount
               State.initial).1
  = Counts.Make 3 1 2.
Proof.
  refine (proj1 (proj2 (proj2
    (first_visit_seeds_and_reloads firstVisitBrowser nextVisitBrowser
       (fun _ => exampleClock) (fun _ => exampleClock) State.initial
       _ _ _ _ _ _)))).
  - reflexivity.
  - reflexivity.
  - discriminate.
  - discriminate.
  - reflexivity.
  - reflexivity.
Defined.

(** ** The reset button *)

(** X24. The Reset Filters button is hidden exactly when the criteria are
    the defaults; so in a coherent state with the button hidden every task
    is shown. Every search text that is not empty and consists of white
    space alone shows the button although it filters nothing. *)
Theorem reset_button_hidden_means_unfiltered (st : State.t) :
  (resetButtonShown (State.filters st) = false
   <-> State.filters st = Filters.Make "all" "" "all")
  /\ (coherent st -> resetButtonShown (State.filters st) = false ->
      State.filteredTasks st = State.tasks st)
  /\ (forall status priority s l,
        s <> "" -> trim s = "" ->
        resetButtonShown (Filters.Make status s priority) = true
        /\ searchFilter (Filters.Make status s priority) l = Ok l).
Proof.
  assert (resetButtonShown (State.filters st) = false
          <-> State.filters st = Filters.Make "all" "" "all") as Hiff.
  { unfold resetButtonShown. destruct (State.filters st) as [s q p]. simpl.
    rewrite !orb_false_iff, !negb_false_iff, !String.eqb_eq.
    split; [intros [[-> ->] ->]; done | by intros [= -> -> ->]]. }
  split_and!; [exact Hiff| |].
  - intros Hc Hh%Hiff. unfold coherent in Hc. rewrite Hh in Hc.
    rewrite applyFilters_default in Hc. injection Hc as Hc.
    by rewrite <- Hc at 1.
  - intros status priority s l Hne Hblank. split.
    + unfold resetButtonShown. simpl.
      apply String.eqb_neq in Hne. by rewrite Hne.
    + by apply searchFilter_blank.
Qed.
